(** * ArmSim: a shallow embedding of [armsim.py]

    The simulator keeps its whole machine state in module-level globals and
    mutates them from [parse], [execute], [run] and [reset].  Here the globals
    become the fields of one record that is threaded through the functions,
    Python exceptions become the [Raise] branch of a result type, dictionaries
    become [gmap]s keyed by strings, and Python's unbounded integers become
    [Z].

    The textual layer (regular expressions that recognise a line) is
    represented by its outcome: a line of the instruction stream is either a
    label or one of the instruction forms that [execute] matches, in the
    order and with the per-form constants of the source. *)

From Stdlib Require Import ZArith Lia List Bool String Ascii.
From stdpp Require Import base option list gmap strings.

Local Open Scope string_scope.
Local Open Scope Z_scope.

(** ** Python exceptions and the result type *)

Inductive exn : Type :=
| ValueError (msg : string)
| KeyError (key : string)
| AssertionError (msg : string)
| IndexError
| OverflowError
| ZeroDivisionError
| EOFError
| UnicodeError.

Inductive result (A : Type) : Type :=
| Ok (a : A)
| Raise (e : exn).
Arguments Ok {A} a.
Arguments Raise {A} e.

#[global] Instance result_ret : MRet result := fun A a => Ok a.
#[global] Instance result_bind : MBind result := fun A B f m =>
  match m with
  | Ok a => f a
  | Raise e => Raise e
  end.

Definition is_ok {A} (r : result A) : bool :=
  match r with Ok _ => true | Raise _ => false end.

(** [assert c, msg] and [if c: raise ValueError(msg)]. *)
Definition py_assert (c : bool) (msg : string) : result unit :=
  if c then Ok tt else Raise (AssertionError msg).
Definition raise_if (c : bool) (e : exn) : result unit :=
  if c then Raise e else Ok tt.

(** ** Python lists, slices and byte conversions *)

Definition py_len {A} (l : list A) : Z := Z.of_nat (length l).

(** How CPython clips one bound of a slice against the length [n]. *)
Definition slice_bound (n i : Z) : Z :=
  if i <? 0 then Z.max (i + n) 0 else Z.min i n.

(** [l[lo:hi]] *)
Definition py_slice {A} (l : list A) (lo hi : Z) : list A :=
  let n := py_len l in
  let a := slice_bound n lo in
  let b := slice_bound n hi in
  take (Z.to_nat (b - a)) (drop (Z.to_nat a) l).

(** [l[lo:hi] = xs]: the clipped range is replaced by [xs], whatever the
    length of [xs]; an empty or inverted range inserts at [lo]. *)
Definition py_slice_assign {A} (l : list A) (lo hi : Z) (xs : list A) : list A :=
  let n := py_len l in
  let a := slice_bound n lo in
  let b := Z.max a (slice_bound n hi) in
  take (Z.to_nat a) l ++ xs ++ drop (Z.to_nat b) l.

(** [l[i]] with Python's negative indices. *)
Definition py_index {A} (l : list A) (i : Z) : result A :=
  let n := py_len l in
  let j := if i <? 0 then i + n else i in
  if (j <? 0) || (n <=? j) then Raise IndexError
  else match l !! Z.to_nat j with
       | Some x => Ok x
       | None => Raise IndexError
       end.

(** [d[k]] on a dictionary. *)
Definition getitem (d : gmap string Z) (k : string) : result Z :=
  match d !! k with
  | Some v => Ok v
  | None => Raise (KeyError k)
  end.

(** The [k] low-order bytes of [n], least significant first. *)
Fixpoint le_bytes (k : nat) (n : Z) : list Z :=
  match k with
  | O => []
  | S k' => (n mod 256) :: le_bytes k' (n / 256)
  end.

(** [int.to_bytes(n, k, 'little', signed=signed)] *)
Definition to_bytes (n : Z) (k : nat) (signed : bool) : result (list Z) :=
  let bits := 8 * Z.of_nat k in
  if signed then
    if (- 2 ^ (bits - 1) <=? n) && (n <? 2 ^ (bits - 1))
    then Ok (le_bytes k n) else Raise OverflowError
  else
    if (0 <=? n) && (n <? 2 ^ bits)
    then Ok (le_bytes k n) else Raise OverflowError.

(** Value of a little-endian byte string read as an unsigned number. *)
Fixpoint le_value (bs : list Z) : Z :=
  match bs with
  | [] => 0
  | b :: bs' => b + 256 * le_value bs'
  end.

(** [int.from_bytes(bs, 'little', signed=signed)] *)
Definition from_bytes (bs : list Z) (signed : bool) : Z :=
  let u := le_value bs in
  let bits := 8 * py_len bs in
  if signed && (0 <? bits) && (2 ^ (bits - 1) <=? u) then u - 2 ^ bits else u.

(** [bytes(l)] accepts only elements of [range(256)]. *)
Definition py_bytes (l : list Z) : result (list Z) :=
  if forallb (fun x => (0 <=? x) && (x <? 256)) l
  then Ok l else Raise (ValueError "bytes must be in range(0, 256)").

(** [bytes(l).decode('ascii')] and [bytes(s, 'ascii')] reject codes above 127. *)
Definition ascii_only (l : list Z) : result (list Z) :=
  if forallb (fun x => (0 <=? x) && (x <? 128)) l
  then Ok l else Raise UnicodeError.

(** ** Instruction forms

    One constructor per form matched by [execute].  Register operands are the
    register names themselves, since the register file is a dictionary keyed
    by name. *)

Inductive addressing : Type :=
| Base (rn : string)                 (* [rn] *)
| BaseImm (rn : string) (imm : Z)    (* [rn, imm] *)
| BaseReg (rn rm : string).          (* [rn, rm] *)

Inductive load_kind : Type := Ldursw | Ldurh | Ldursh | Ldurb | Ldursb | Ldur.
Inductive store_kind : Type := Sturw | Sturh | Sturb | Stur.
Inductive operand2 : Type := Imm (imm : Z) | Reg (rm : string).
Inductive arith_op : Type := Add | Sub | And | Orr | Eor.
Inductive shift_op : Type := Lsr | Lsl.
Inductive cond : Type := LT | LE | GT | GE | EQ | NE | MI | PL.

Inductive instr : Type :=
| ILoad (k : load_kind) (rt : string) (a : addressing)
| ILdurVar (rt : string) (v : string)          (* ldur rt, =<var> *)
| IStore (k : store_kind) (rt : string) (a : addressing)
| IMov (rd : string) (o : operand2)
| IAsr (rd rn : string) (imm : Z)
| IShift (op : shift_op) (rd rn : string) (o : operand2)
| IArith (op : arith_op) (s : bool) (rd rn : string) (o : operand2)
| IMul (rd rn rm : string)
| IUdiv (rd rn rm : string)
| ISdiv (rd rn rm : string)
| ICmp (rn : string) (o : operand2)
| ICbnz (rn : string) (label : string)
| ICbz (rn : string) (label : string)
| IB (label : string)
| IBcond (c : cond) (label : string)
| IBl (label : string)
| IBrLr
| ISvc0
| IUnsupported (text : string).

(** A line of [asm]: a label line [<name>:] or an instruction line. *)
Inductive line : Type :=
| Lbl (name : string)
| Ins (i : instr).

(** The values held by [ld_dst] and [last_dst]: the integer [-1] at start-up,
    [None] at the start of every [execute], or a register name. *)
Inductive pyval : Type :=
| PyInt (z : Z)
| PyNone
| PyStr (s : string).

Definition pyval_is (v : pyval) (r : string) : bool :=
  match v with
  | PyStr s => String.eqb s r
  | _ => false
  end.

(** ** Machine state: the module's global variables *)

Record machine : Type := Machine {
  asm : list line;
  original_break : Z;
  brk : Z;
  reg : gmap string Z;
  pc : Z;
  n_flag : bool;
  z_flag : bool;
  label_hit_counts : gmap string Z;
  linked_labels : gmap string nat;
  sym_table : gmap string Z;
  mem : list Z;
  forbidden_instructions : gset string;
  forbid_recursion : bool;
  require_recursion : bool;
  forbid_loops : bool;
  check_dead_code : bool;
  recursive_labels : gset string;
  cycle_count : Z;
  execute_count : Z;
  ld_cycle : Z;
  ld_dst : pyval;
  flag_cycle : Z;
  last_dst : pyval;
  (* the host side of the system calls *)
  stdin : list (list Z);
  stdout : list Z;
  entropy : nat -> Z
}.

Definition STACK_SIZE : Z := 4096.
Definition HEAP_SIZE : Z := 0x4000.

(** Assignments to single globals. *)
Definition set_asm (v : list line) (s : machine) : machine :=
  Machine v (original_break s) (brk s) (reg s) (pc s) (n_flag s) (z_flag s)
    (label_hit_counts s) (linked_labels s) (sym_table s) (mem s)
    (forbidden_instructions s) (forbid_recursion s) (require_recursion s)
    (forbid_loops s) (check_dead_code s) (recursive_labels s) (cycle_count s)
    (execute_count s) (ld_cycle s) (ld_dst s) (flag_cycle s) (last_dst s)
    (stdin s) (stdout s) (entropy s).
Definition set_original_break (v : Z) (s : machine) : machine :=
  Machine (asm s) v (brk s) (reg s) (pc s) (n_flag s) (z_flag s)
    (label_hit_counts s) (linked_labels s) (sym_table s) (mem s)
    (forbidden_instructions s) (forbid_recursion s) (require_recursion s)
    (forbid_loops s) (check_dead_code s) (recursive_labels s) (cycle_count s)
    (execute_count s) (ld_cycle s) (ld_dst s) (flag_cycle s) (last_dst s)
    (stdin s) (stdout s) (entropy s).
Definition set_brk (v : Z) (s : machine) : machine :=
  Machine (asm s) (original_break s) v (reg s) (pc s) (n_flag s) (z_flag s)
    (label_hit_counts s) (linked_labels s) (sym_table s) (mem s)
    (forbidden_instructions s) (forbid_recursion s) (require_recursion s)
    (forbid_loops s) (check_dead_code s) (recursive_labels s) (cycle_count s)
    (execute_count s) (ld_cycle s) (ld_dst s) (flag_cycle s) (last_dst s)
    (stdin s) (stdout s) (entropy s).
Definition set_regs (v : gmap string Z) (s : machine) : machine :=
  Machine (asm s) (original_break s) (brk s) v (pc s) (n_flag s) (z_flag s)
    (label_hit_counts s) (linked_labels s) (sym_table s) (mem s)
    (forbidden_instructions s) (forbid_recursion s) (require_recursion s)
    (forbid_loops s) (check_dead_code s) (recursive_labels s) (cycle_count s)
    (execute_count s) (ld_cycle s) (ld_dst s) (flag_cycle s) (last_dst s)
    (stdin s) (stdout s) (entropy s).
Definition set_pc (v : Z) (s : machine) : machine :=
  Machine (asm s) (original_break s) (brk s) (reg s) v (n_flag s) (z_flag s)
    (label_hit_counts s) (linked_labels s) (sym_table s) (mem s)
    (forbidden_instructions s) (forbid_recursion s) (require_recursion s)
    (forbid_loops s) (check_dead_code s) (recursive_labels s) (cycle_count s)
    (execute_count s) (ld_cycle s) (ld_dst s) (flag_cycle s) (last_dst s)
    (stdin s) (stdout s) (entropy s).
Definition set_n_flag (v : bool) (s : machine) : machine :=
  Machine (asm s) (original_break s) (brk s) (reg s) (pc s) v (z_flag s)
    (label_hit_counts s) (linked_labels s) (sym_table s) (mem s)
    (forbidden_instructions s) (forbid_recursion s) (require_recursion s)
    (forbid_loops s) (check_dead_code s) (recursive_labels s) (cycle_count s)
    (execute_count s) (ld_cycle s) (ld_dst s) (flag_cycle s) (last_dst s)
    (stdin s) (stdout s) (entropy s).
Definition set_z_flag (v : bool) (s : machine) : machine :=
  Machine (asm s) (original_break s) (brk s) (reg s) (pc s) (n_flag s) v
    (label_hit_counts s) (linked_labels s) (sym_table s) (mem s)
    (forbidden_instructions s) (forbid_recursion s) (require_recursion s)
    (forbid_loops s) (check_dead_code s) (recursive_labels s) (cycle_count s)
    (execute_count s) (ld_cycle s) (ld_dst s) (flag_cycle s) (last_dst s)
    (stdin s) (stdout s) (entropy s).
Definition set_label_hit_counts (v : gmap string Z) (s : machine) : machine :=
  Machine (asm s) (original_break s) (brk s) (reg s) (pc s) (n_flag s) (z_flag s)
    v (linked_labels s) (sym_table s) (mem s)
    (forbidden_instructions s) (forbid_recursion s) (require_recursion s)
    (forbid_loops s) (check_dead_code s) (recursive_labels s) (cycle_count s)
    (execute_count s) (ld_cycle s) (ld_dst s) (flag_cycle s) (last_dst s)
    (stdin s) (stdout s) (entropy s).
Definition set_sym_table (v : gmap string Z) (s : machine) : machine :=
  Machine (asm s) (original_break s) (brk s) (reg s) (pc s) (n_flag s) (z_flag s)
    (label_hit_counts s) (linked_labels s) v (mem s)
    (forbidden_instructions s) (forbid_recursion s) (require_recursion s)
    (forbid_loops s) (check_dead_code s) (recursive_labels s) (cycle_count s)
    (execute_count s) (ld_cycle s) (ld_dst s) (flag_cycle s) (last_dst s)
    (stdin s) (stdout s) (entropy s).
Definition set_mem (v : list Z) (s : machine) : machine :=
  Machine (asm s) (original_break s) (brk s) (reg s) (pc s) (n_flag s) (z_flag s)
    (label_hit_counts s) (linked_labels s) (sym_table s) v
    (forbidden_instructions s) (forbid_recursion s) (require_recursion s)
    (forbid_loops s) (check_dead_code s) (recursive_labels s) (cycle_count s)
    (execute_count s) (ld_cycle s) (ld_dst s) (flag_cycle s) (last_dst s)
    (stdin s) (stdout s) (entropy s).
Definition set_cycle_count (v : Z) (s : machine) : machine :=
  Machine (asm s) (original_break s) (brk s) (reg s) (pc s) (n_flag s) (z_flag s)
    (label_hit_counts s) (linked_labels s) (sym_table s) (mem s)
    (forbidden_instructions s) (forbid_recursion s) (require_recursion s)
    (forbid_loops s) (check_dead_code s) (recursive_labels s) v
    (execute_count s) (ld_cycle s) (ld_dst s) (flag_cycle s) (last_dst s)
    (stdin s) (stdout s) (entropy s).
Definition set_execute_count (v : Z) (s : machine) : machine :=
  Machine (asm s) (original_break s) (brk s) (reg s) (pc s) (n_flag s) (z_flag s)
    (label_hit_counts s) (linked_labels s) (sym_table s) (mem s)
    (forbidden_instructions s) (forbid_recursion s) (require_recursion s)
    (forbid_loops s) (check_dead_code s) (recursive_labels s) (cycle_count s)
    v (ld_cycle s) (ld_dst s) (flag_cycle s) (last_dst s)
    (stdin s) (stdout s) (entropy s).
Definition set_ld (c : Z) (d : pyval) (s : machine) : machine :=
  Machine (asm s) (original_break s) (brk s) (reg s) (pc s) (n_flag s) (z_flag s)
    (label_hit_counts s) (linked_labels s) (sym_table s) (mem s)
    (forbidden_instructions s) (forbid_recursion s) (require_recursion s)
    (forbid_loops s) (check_dead_code s) (recursive_labels s) (cycle_count s)
    (execute_count s) c d (flag_cycle s) (last_dst s)
    (stdin s) (stdout s) (entropy s).
Definition set_flag_cycle (v : Z) (s : machine) : machine :=
  Machine (asm s) (original_break s) (brk s) (reg s) (pc s) (n_flag s) (z_flag s)
    (label_hit_counts s) (linked_labels s) (sym_table s) (mem s)
    (forbidden_instructions s) (forbid_recursion s) (require_recursion s)
    (forbid_loops s) (check_dead_code s) (recursive_labels s) (cycle_count s)
    (execute_count s) (ld_cycle s) (ld_dst s) v (last_dst s)
    (stdin s) (stdout s) (entropy s).
Definition set_last_dst (v : pyval) (s : machine) : machine :=
  Machine (asm s) (original_break s) (brk s) (reg s) (pc s) (n_flag s) (z_flag s)
    (label_hit_counts s) (linked_labels s) (sym_table s) (mem s)
    (forbidden_instructions s) (forbid_recursion s) (require_recursion s)
    (forbid_loops s) (check_dead_code s) (recursive_labels s) (cycle_count s)
    (execute_count s) (ld_cycle s) (ld_dst s) (flag_cycle s) v
    (stdin s) (stdout s) (entropy s).
Definition set_stdin (v : list (list Z)) (s : machine) : machine :=
  Machine (asm s) (original_break s) (brk s) (reg s) (pc s) (n_flag s) (z_flag s)
    (label_hit_counts s) (linked_labels s) (sym_table s) (mem s)
    (forbidden_instructions s) (forbid_recursion s) (require_recursion s)
    (forbid_loops s) (check_dead_code s) (recursive_labels s) (cycle_count s)
    (execute_count s) (ld_cycle s) (ld_dst s) (flag_cycle s) (last_dst s)
    v (stdout s) (entropy s).
Definition set_stdout (v : list Z) (s : machine) : machine :=
  Machine (asm s) (original_break s) (brk s) (reg s) (pc s) (n_flag s) (z_flag s)
    (label_hit_counts s) (linked_labels s) (sym_table s) (mem s)
    (forbidden_instructions s) (forbid_recursion s) (require_recursion s)
    (forbid_loops s) (check_dead_code s) (recursive_labels s) (cycle_count s)
    (execute_count s) (ld_cycle s) (ld_dst s) (flag_cycle s) (last_dst s)
    (stdin s) v (entropy s).
Definition set_entropy (v : nat -> Z) (s : machine) : machine :=
  Machine (asm s) (original_break s) (brk s) (reg s) (pc s) (n_flag s) (z_flag s)
    (label_hit_counts s) (linked_labels s) (sym_table s) (mem s)
    (forbidden_instructions s) (forbid_recursion s) (require_recursion s)
    (forbid_loops s) (check_dead_code s) (recursive_labels s) (cycle_count s)
    (execute_count s) (ld_cycle s) (ld_dst s) (flag_cycle s) (last_dst s)
    (stdin s) (stdout s) v.

(** [reg[r] = v] and [cycle_count += d]. *)
Definition set_reg (r : string) (v : Z) (s : machine) : machine :=
  set_regs (<[r := v]> (reg s)) s.
Definition add_cycles (d : Z) (s : machine) : machine :=
  set_cycle_count (cycle_count s + d) s.

(** ** Register names inside a branch line

    The branch forms count the matches of [register_regex] in the line and
    refuse a line with a register where none is expected.  The alternatives
    [lr], [fp], [sp] and [xzr] carry no look-behind, so they match anywhere
    inside a label; [x0]..[x29] match only as a whole word. *)

Definition is_digit (c : ascii) : bool :=
  let n := nat_of_ascii c in (48 <=? n)%nat && (n <=? 57)%nat.

Fixpoint strip_dots (l : string) : string :=
  match l with
  | String "." r => strip_dots r
  | _ => l
  end.

Definition is_xreg (w : string) : bool :=
  match w with
  | String "x" (String d EmptyString) => is_digit d
  | String "x" (String t (String d EmptyString)) =>
      (Ascii.eqb t "1" || Ascii.eqb t "2") && is_digit d
  | _ => false
  end.

Definition has_sub (p l : string) : bool :=
  match String.index 0 p l with
  | Some _ => true
  | None => false
  end.

(** [len(re.findall(register_regex, label)) != 0] for a label [[.]*\w+]. *)
Definition mentions_register (label : string) : bool :=
  has_sub "lr" label || has_sub "fp" label || has_sub "sp" label
  || has_sub "xzr" label || is_xreg (strip_dots label).

(** [asm.index(label + ':')] *)
Fixpoint find_label (label : string) (code : list line) : option nat :=
  match code with
  | [] => None
  | Lbl n :: rest =>
      if String.eqb n label then Some 0%nat else S <$> find_label label rest
  | Ins _ :: rest => S <$> find_label label rest
  end.

(** ** Per-form constants of the load and store handlers *)

(** The load-use stall a form charges: nothing, a flat cycle, or the distance
    to the load; each within its own window on [current_cycle - ld_cycle]. *)
Inductive penalty : Type :=
| NoStall
| Flat (window : Z)
| Delta (window : Z).

Definition addr_regs (a : addressing) : list string :=
  match a with
  | Base rn => [rn]
  | BaseImm rn _ => [rn]
  | BaseReg rn rm => [rn; rm]
  end.

Definition load_width (k : load_kind) : Z :=
  match k with
  | Ldursw => 4
  | Ldurh | Ldursh => 2
  | Ldurb | Ldursb => 1
  | Ldur => 8
  end.

Definition load_signed (k : load_kind) : bool :=
  match k with
  | Ldursw | Ldursh | Ldursb => true
  | Ldurh | Ldurb | Ldur => false
  end.

(** The constant [c] of the test [addr > len(mem) - c] in each load form. *)
Definition load_limit (k : load_kind) (a : addressing) : Z :=
  match k, a with
  | Ldursw, Base _ => 4
  | Ldursw, BaseImm _ _ => 2
  | Ldursw, BaseReg _ _ => 2
  | (Ldurh | Ldursh), _ => 2
  | (Ldurb | Ldursb), _ => 1
  | Ldur, _ => 8
  end.

Definition load_stall (k : load_kind) (a : addressing) : penalty :=
  match k, a with
  | Ldursw, Base _ => Flat 2
  | Ldursw, BaseImm _ _ => Delta 2
  | Ldursw, BaseReg _ _ => Delta 2
  | (Ldurh | Ldursh), Base _ => Flat 2
  | (Ldurh | Ldursh), BaseImm _ _ => Delta 2
  | (Ldurh | Ldursh), BaseReg _ _ => Delta 2
  | (Ldurb | Ldursb), Base _ => Flat 2
  | (Ldurb | Ldursb), BaseImm _ _ => Flat 2
  | (Ldurb | Ldursb), BaseReg _ _ => Delta 2
  | Ldur, _ => Flat 2
  end.

Definition store_width (k : store_kind) : Z :=
  match k with
  | Sturw => 4
  | Sturh => 2
  | Sturb => 1
  | Stur => 8
  end.

(** The constant [c] of the test [addr > len(mem) - c] in each store form. *)
Definition store_limit (k : store_kind) (a : addressing) : Z :=
  match k with
  | Sturw => 2
  | Sturh => 2
  | Sturb => 1
  | Stur => 8
  end.

Definition store_stall (k : store_kind) (a : addressing) : penalty :=
  match k, a with
  | Stur, BaseImm _ _ => NoStall
  | _, Base _ => Delta 2
  | _, BaseImm _ _ => Delta 2
  | _, BaseReg _ _ => Flat 2
  end.

Definition operand_regs (rn : string) (o : operand2) : list string :=
  match o with
  | Imm _ => [rn]
  | Reg rm => [rn; rm]
  end.

Definition arith_stall (op : arith_op) (o : operand2) : penalty :=
  match op, o with
  | Add, Imm _ => Flat 1
  | _, Imm _ => Delta 2
  | _, Reg _ => Flat 2
  end.

Definition shift_stall (o : operand2) : penalty :=
  match o with
  | Imm _ => Delta 2
  | Reg _ => Flat 2
  end.

Definition MASK64 : Z := 0xFFFFFFFFFFFFFFFF.

Definition oob : exn := ValueError "out of bounds memory access".

(** ** [execute] *)

Section Execute.

(** The callables registered in [linked_labels]: the table maps a label to an
    identifier, and [host] is what calling it does to the globals. *)
Variable host : nat -> machine -> result machine.

Definition hazard (cur : Z) (srcs : list string) (window : Z) (s : machine) : bool :=
  existsb (pyval_is (ld_dst s)) srcs && (cur - ld_cycle s <=? window).

Definition stall (cur : Z) (srcs : list string) (p : penalty) (s : machine) : machine :=
  match p with
  | NoStall => s
  | Flat w => if hazard cur srcs w s then add_cycles 1 s else s
  | Delta w => if hazard cur srcs w s then add_cycles (cur - ld_cycle s) s else s
  end.

(** The effective address of an access. *)
Definition address (a : addressing) (s : machine) : result Z :=
  match a with
  | Base rn => getitem (reg s) rn
  | BaseImm rn imm => x ← getitem (reg s) rn; Ok (x + imm)
  | BaseReg rn rm => x ← getitem (reg s) rn; y ← getitem (reg s) rm; Ok (x + y)
  end.

(** [if (addr < reg['sp'] or addr > len(mem) - c): raise ValueError(...)] *)
Definition check_bounds (addr c : Z) (s : machine) : result unit :=
  sp ← getitem (reg s) "sp";
  raise_if ((addr <? sp) || (addr >? py_len (mem s) - c)) oob.

Definition exec_load (cur : Z) (k : load_kind) (rt : string) (a : addressing)
    (s : machine) : result machine :=
  let s := stall cur (addr_regs a) (load_stall k a) s in
  addr ← address a s;
  _ ← check_bounds addr (load_limit k a) s;
  bs ← py_bytes (py_slice (mem s) addr (addr + load_width k));
  Ok (set_ld cur (PyStr rt) (set_reg rt (from_bytes bs (load_signed k)) s)).

(** The bytes a store writes: [stur] encodes the register unsigned, the
    narrower stores encode it signed on 8 bytes and keep the low ones. *)
Definition store_bytes (k : store_kind) (v : Z) : result (list Z) :=
  match k with
  | Stur => to_bytes v 8 false
  | _ => rb ← to_bytes v 8 true; Ok (take (Z.to_nat (store_width k)) rb)
  end.

Definition exec_store (cur : Z) (k : store_kind) (rt : string) (a : addressing)
    (s : machine) : result machine :=
  let s := stall cur (addr_regs a) (store_stall k a) s in
  addr ← address a s;
  _ ← check_bounds addr (store_limit k a) s;
  v ← getitem (reg s) rt;
  bs ← store_bytes k v;
  Ok (set_mem (py_slice_assign (mem s) addr (addr + store_width k) bs) s).

Definition operand_value (o : operand2) (s : machine) : result Z :=
  match o with
  | Imm imm => Ok imm
  | Reg rm => getitem (reg s) rm
  end.

(** [n_flag = reg[rd] < 0; z_flag = reg[rd] == 0; flag_cycle = current_cycle] *)
Definition set_nz (cur : Z) (v : Z) (s : machine) : machine :=
  set_flag_cycle cur (set_z_flag (v =? 0) (set_n_flag (v <? 0) s)).

Definition arith_value (op : arith_op) (x y : Z) : Z :=
  match op with
  | Add => x + y
  | Sub => x - y
  | And => Z.land x y
  | Orr => Z.lor x y
  | Eor => Z.lxor x y
  end.

Definition neg_shift : exn := ValueError "negative shift count".

Definition shift_value (op : shift_op) (x y : Z) : result Z :=
  if y <? 0 then Raise neg_shift
  else match op with
       | Lsr => Ok (Z.shiftr (Z.land x MASK64) y)
       | Lsl => Ok (Z.land (Z.shiftl x y) MASK64)
       end.

(** Python's [//] on integers. *)
Definition floordiv (x y : Z) : result Z :=
  if y =? 0 then Raise ZeroDivisionError else Ok (x / y).

Definition exec_div (cur : Z) (rd rn rm : string) (s : machine) : result machine :=
  let s := stall cur [rn; rm] (Flat 2) s in
  x ← getitem (reg s) rn;
  y ← getitem (reg s) rm;
  q ← floordiv x y;
  Ok (set_last_dst (PyStr rd) (set_reg rd q s)).

(** [pc = asm.index(label + ':')] *)
Definition goto (label : string) (s : machine) : result machine :=
  match find_label label (asm s) with
  | Some i => Ok (set_pc (Z.of_nat i) s)
  | None => Raise (ValueError "label is not in list")
  end.

Definition exec_cb (cur : Z) (on_nonzero : bool) (rn label : string)
    (s : machine) : result machine :=
  _ ← raise_if (mentions_register label) (ValueError "cbz/cbnz takes one register");
  let s :=
    if pyval_is (last_dst s) rn then add_cycles 1 s
    else if pyval_is (ld_dst s) rn && (cur - ld_cycle s <=? 2)
         then add_cycles (3 - (cur - ld_cycle s)) s
         else s in
  v ← getitem (reg s) rn;
  if (if on_nonzero then negb (v =? 0) else (v =? 0))
  then s' ← goto label s; Ok (add_cycles 1 s')
  else Ok s.

(** The predicate tested by each conditional branch. *)
Definition cond_holds (c : cond) (s : machine) : bool :=
  match c with
  | LT => n_flag s
  | LE => n_flag s || z_flag s
  | GT => negb (z_flag s) && negb (n_flag s)
  | GE => negb (n_flag s)
  | EQ => z_flag s
  | NE => negb (z_flag s)
  | MI => n_flag s
  | PL => negb (n_flag s) || z_flag s
  end.

(** Whether the handler of the branch tests [current_cycle - flag_cycle <= 1];
    the [b.mi] handler has no such test. *)
Definition checks_flag_cycle (c : cond) : bool :=
  match c with
  | MI => false
  | _ => true
  end.

Definition flag_stall (cur : Z) (s : machine) : machine :=
  if cur - flag_cycle s <=? 1 then add_cycles 1 s else s.

Definition exec_bcond (cur : Z) (c : cond) (label : string) (s : machine)
    : result machine :=
  _ ← raise_if (mentions_register label) (ValueError "branch takes no registers");
  let s := if checks_flag_cycle c then flag_stall cur s else s in
  if cond_holds c s
  then s' ← goto label s; Ok (add_cycles 1 s')
  else Ok s.

Definition exec_bl (cur : Z) (label : string) (s : machine) : result machine :=
  _ ← raise_if (mentions_register label) (ValueError "bl takes no registers");
  let key := String.append label ":" in
  let s := flag_stall cur s in
  let s := set_reg "lr" (pc s) s in
  let s := match label_hit_counts s !! key with
           | Some c => set_label_hit_counts (<[key := c + 1]> (label_hit_counts s)) s
           | None => s
           end in
  s ← match linked_labels s !! key with
       | Some f => host f s
       | None => goto label s
       end;
  Ok (add_cycles 1 s).

Definition exec_br_lr (s : machine) : result machine :=
  addr ← getitem (reg s) "lr";
  _ ← raise_if (negb ((0 <=? addr) && (addr <? py_len (asm s))))
        (ValueError "ret: address in LR out of range");
  Ok (add_cycles 1 (set_pc addr s)).

(** The [brk] system call (x8 = 214). *)
Definition sys_brk (s : machine) : result machine :=
  new_brk ← getitem (reg s) "x0";
  if new_brk <? original_break s then
    Ok (set_reg "x0" (brk s) s)
  else if new_brk =? original_break s then
    let s := set_brk new_brk s in
    let s := set_reg "x0" (brk s) s in
    Ok (set_mem (py_slice (mem s) 0 (original_break s)) s)
  else
    let break_size := new_brk - original_break s in
    _ ← py_assert (0 <=? break_size) "System error: break_size should never be negative";
    let page := (break_size + 0x1000) - break_size mod 0x1000 in
    _ ← raise_if (page >? HEAP_SIZE) (ValueError "break size too large");
    let s :=
      if py_len (mem s) >? page + original_break s
      then set_mem (py_slice (mem s) 0 (page + original_break s)) s
      else set_mem (mem s ++ repeat 0 (Z.to_nat page)) s in
    x0 ← getitem (reg s) "x0";
    Ok (set_brk x0 s).

(** The [write] system call (x8 = 64). *)
Definition sys_write (s : machine) : result machine :=
  x0 ← getitem (reg s) "x0";
  _ ← py_assert (x0 =? 1) "Can only write to stdout! (x0 must contain #1)";
  length ← getitem (reg s) "x2";
  addr ← getitem (reg s) "x1";
  bs ← py_bytes (py_slice (mem s) addr (addr + length));
  out ← ascii_only bs;
  Ok (set_stdout (stdout s ++ out) s).

(** The [read] system call (x8 = 63). *)
Definition sys_read (s : machine) : result machine :=
  length ← getitem (reg s) "x2";
  addr ← getitem (reg s) "x1";
  match stdin s with
  | [] => Raise EOFError
  | ln :: rest =>
      let enter := py_slice (ln ++ [10]) 0 length in
      bs ← ascii_only enter;
      let s := set_stdin rest s in
      let s := set_mem (py_slice_assign (mem s) addr (addr + py_len enter) bs) s in
      Ok (set_reg "x0" (py_len enter) s)
  end.

(** The [getrandom] system call (x8 = 278). *)
Definition sys_getrandom (s : machine) : result machine :=
  addr ← getitem (reg s) "x0";
  quantity ← getitem (reg s) "x1";
  _ ← raise_if (quantity <? 0) (ValueError "negative argument not allowed");
  let n := Z.to_nat quantity in
  let bs := map (fun i => entropy s i mod 256) (seq 0 n) in
  let s := set_entropy (fun i => entropy s (i + n)%nat) s in
  let s := set_mem (py_slice_assign (mem s) addr (addr + quantity) bs) s in
  Ok (set_reg "x0" quantity s).

Definition exec_svc (s : machine) : result machine :=
  syscall ← getitem (reg s) "x8";
  if syscall =? 93 then Ok (set_pc (py_len (asm s)) s)
  else if syscall =? 64 then sys_write s
  else if syscall =? 63 then sys_read s
  else if syscall =? 214 then sys_brk s
  else if syscall =? 278 then sys_getrandom s
  else Raise (ValueError "Unsupported system call").

Definition unsupported : exn := ValueError "Unsupported instruction or syntax error".

Definition execute (i : instr) (s0 : machine) : result machine :=
  let cur := cycle_count s0 in
  let s := set_cycle_count (cycle_count s0 + 1) s0 in
  let s := set_execute_count (execute_count s + 1) s in
  let s := set_last_dst PyNone s in
  match i with
  | ILoad k rt a => exec_load cur k rt a s
  | ILdurVar rt v =>
      x ← getitem (sym_table s) v;
      Ok (set_ld cur (PyStr rt) (set_reg rt x s))
  | IStore k rt a => exec_store cur k rt a s
  | IMov rd (Imm imm) =>
      Ok (set_last_dst (PyStr rd) (set_reg rd imm s))
  | IMov rd (Reg rn) =>
      let s := stall cur [rn] (Flat 2) s in
      x ← getitem (reg s) rn;
      Ok (set_last_dst (PyStr rd) (set_reg rd x s))
  | IAsr rd rn imm =>
      let s := stall cur [rn] (Delta 2) s in
      x ← getitem (reg s) rn;
      _ ← raise_if (imm <? 0) neg_shift;
      Ok (set_last_dst (PyStr rd) (set_reg rd (Z.shiftr x imm) s))
  | IShift op rd rn o =>
      let s := stall cur (operand_regs rn o) (shift_stall o) s in
      x ← getitem (reg s) rn;
      y ← operand_value o s;
      v ← shift_value op x y;
      Ok (set_last_dst (PyStr rd) (set_reg rd v s))
  | IArith op sf rd rn o =>
      let s := stall cur (operand_regs rn o) (arith_stall op o) s in
      x ← getitem (reg s) rn;
      y ← operand_value o s;
      let v := arith_value op x y in
      let s := set_reg rd v s in
      let s := if sf then set_nz cur v s else s in
      Ok (set_last_dst (PyStr rd) s)
  | IMul rd rn rm =>
      let s := stall cur [rn; rm] (Flat 2) s in
      x ← getitem (reg s) rn;
      y ← getitem (reg s) rm;
      Ok (add_cycles 4 (set_last_dst (PyStr rd) (set_reg rd (x * y) s)))
  | IUdiv rd rn rm => exec_div cur rd rn rm s
  | ISdiv rd rn rm => exec_div cur rd rn rm s
  | ICmp rn o =>
      let s := stall cur (operand_regs rn o) (Flat 2) s in
      _ ← match o with
          | Reg rm => py_assert (negb (String.eqb rm "sp")) "2nd register in cmp can't be sp"
          | Imm _ => Ok tt
          end;
      x ← getitem (reg s) rn;
      y ← operand_value o s;
      let s := set_z_flag (x =? y) s in
      let s := set_n_flag (x <? y) s in
      let s := set_flag_cycle cur s in
      Ok (set_last_dst (PyStr rn) s)
  | ICbnz rn label => exec_cb cur true rn label s
  | ICbz rn label => exec_cb cur false rn label s
  | IB label =>
      _ ← raise_if (mentions_register label) (ValueError "b takes no registers");
      s' ← goto label s;
      Ok (add_cycles 1 s')
  | IBcond c label => exec_bcond cur c label s
  | IBl label => exec_bl cur label s
  | IBrLr => exec_br_lr s
  | ISvc0 => exec_svc s
  | IUnsupported _ => Raise unsupported
  end.

(** ** The driver loop of [run] *)

(** State of the loop: the globals and the local set [recursed_labels]. *)
Definition run_state : Type := machine * gset string.

Definition stack_checks (s : machine) : result unit :=
  sp ← getitem (reg s) "sp";
  _ ← raise_if (sp <? 0) (ValueError "stack overflow");
  _ ← raise_if (sp >? STACK_SIZE) (ValueError "stack underflow (make sure to allocate space)");
  raise_if (negb ((sp + 1) mod 16 =? 0)) (ValueError "Alignment error: sp must be a multiple of 16").

(** One turn of [while pc < len(asm)], entered with the guard true. *)
Definition run_iter (st : run_state) : result run_state :=
  let '(s, recursed) := st in
  ln ← py_index (asm s) (pc s);
  recursed ← match ln with
             | Ins (IBl label) =>
                 lr ← getitem (reg s) "lr";
                 Ok (if pc s =? lr then {[label]} ∪ recursed else recursed)
             | _ => Ok recursed
             end;
  _ ← stack_checks s;
  match ln with
  | Lbl name =>
      let key := String.append name ":" in
      let s := set_pc (pc s + 1) s in
      c ← getitem (label_hit_counts s) key;
      Ok (set_label_hit_counts (<[key := c + 1]> (label_hit_counts s)) s, recursed)
  | Ins i =>
      s ← execute i s;
      let s := set_reg "xzr" 0 s in
      Ok (set_pc (pc s + 1) s, recursed)
  end.

(** The loop itself; [fuel] bounds the number of turns. *)
Fixpoint run_loop (fuel : nat) (st : run_state) : result (option run_state) :=
  if pc (fst st) <? py_len (asm (fst st)) then
    match fuel with
    | O => Ok None
    | S fuel' => st' ← run_iter st; run_loop fuel' st'
    end
  else Ok (Some st).

End Execute.

(** ** [parse]: the data and bss directives

    Comment skipping, section switches and the punctuation clean-up are
    represented by their outcome: the sequence of code lines and recognised
    directives, in source order. *)

(** An operand that is either the name of a symbol or an integer literal. *)
Inductive operand_text : Type :=
| Sym (name : string)
| Num (z : Z).

Inductive directive : Type :=
| Asciz (name : string) (chars : list Z)      (* <name>:.asciz "<chars>" *)
| Space (name : string) (size : operand_text) (* <name>:.space <size> *)
| Dword (name : string) (numbers : list Z)    (* <name>:.dword v1,v2,... *)
| Word (name : string) (numbers : list Z)
| Hword (name : string) (numbers : list Z)
| Byte (name : string) (numbers : list Z)
| LenOf (lhs name : string)                   (* <lhs>=.-<name> *)
| Assign (lhs : string) (rhs : operand_text). (* <lhs>=<rhs> *)

Inductive item : Type :=
| Code (ln : line)
| Data (d : directive).

(** [signed = not (0 <= n <= 255 ** width)] followed by
    [int.to_bytes(n, width, 'little', signed=signed)]. *)
Definition number_signed (width : nat) (n : Z) : bool :=
  negb ((0 <=? n) && (n <=? 255 ^ Z.of_nat width)).

Definition encode_number (width : nat) (n : Z) : result (list Z) :=
  to_bytes n width (number_signed width n).

(** The loop [for n in numbers: mem.extend(...)]. *)
Fixpoint extend_numbers (width : nat) (numbers : list Z) (m : list Z)
    : result (list Z) :=
  match numbers with
  | [] => Ok m
  | n :: rest => bs ← encode_number width n; extend_numbers width rest (m ++ bs)
  end.

Definition size_key (name : string) : string := String.append name "_SIZE_".
Definition type_key (name : string) : string := String.append name "_TYPE_".

(** The three symbol-table entries made for a declared variable. *)
Definition declare (name : string) (index size type : Z) (t : gmap string Z)
    : gmap string Z :=
  <[type_key name := type]> (<[size_key name := size]> (<[name := index]> t)).

Definition operand_lookup (o : operand_text) (t : gmap string Z) : result Z :=
  match o with
  | Sym name => match t !! name with
                | Some v => Ok v
                | None => Raise (ValueError "invalid literal for int()")
                end
  | Num z => Ok z
  end.

Definition numbers_directive (width : nat) (type : Z) (name : string)
    (numbers : list Z) (s : machine) (index : Z) : result (machine * Z) :=
  let size := py_len numbers * Z.of_nat width in
  m ← extend_numbers width numbers (mem s);
  let s := set_mem m s in
  let s := set_sym_table (declare name index size type (sym_table s)) s in
  Ok (s, index + size).

Definition parse_directive (d : directive) (s : machine) (index : Z)
    : result (machine * Z) :=
  match d with
  | Asciz name chars =>
      bs ← ascii_only chars;
      let s := set_sym_table
                 (<[type_key name := 0]>
                    (<[size_key name := py_len chars]>
                       (<[name := index]> (sym_table s)))) s in
      Ok (set_mem (mem s ++ bs) s, index + py_len chars)
  | Space name o =>
      size ← operand_lookup o (sym_table s);
      let s := set_mem (mem s ++ repeat 0 (Z.to_nat size)) s in
      let s := set_sym_table
                 (<[size_key name := size]>
                    (<[type_key name := 2]>
                       (<[name := index]> (sym_table s)))) s in
      Ok (s, index + size)
  | Dword name numbers => numbers_directive 8 1 name numbers s index
  | Word name numbers => numbers_directive 4 3 name numbers s index
  | Hword name numbers => numbers_directive 2 4 name numbers s index
  | Byte name numbers => numbers_directive 1 5 name numbers s index
  | LenOf lhs name =>
      match sym_table s !! name with
      | None => Raise (KeyError "Can't find length of undeclared variable")
      | Some _ =>
          v ← getitem (sym_table s) (size_key name);
          Ok (set_sym_table (<[lhs := v]> (sym_table s)) s, index)
      end
  | Assign lhs rhs =>
      v ← operand_lookup rhs (sym_table s);
      Ok (set_sym_table (<[lhs := v]> (sym_table s)) s, index)
  end.

Fixpoint parse_items (items : list item) (s : machine) (index : Z)
    : result (machine * Z) :=
  match items with
  | [] => Ok (s, index)
  | Code ln :: rest => parse_items rest (set_asm (asm s ++ [ln]) s) index
  | Data d :: rest =>
      '(s', index') ← parse_directive d s index;
      parse_items rest s' index'
  end.

Definition parse (items : list item) (s : machine) : result machine :=
  let s := set_mem (mem s ++ repeat 0 (Z.to_nat STACK_SIZE)) s in
  let s := set_reg "sp" (py_len (mem s) - 1) s in
  let index := py_len (mem s) in
  '(s, index) ← parse_items items s index;
  let s := set_original_break index s in
  let s := set_brk (original_break s) s in
  _ ← py_assert (brk s =? py_len (mem s)) "mem list likely incorrect";
  Ok s.

(** ** [reset] *)

Definition reset (s : machine) : machine :=
  {| asm := [];
     original_break := original_break s;
     brk := brk s;
     reg := (fun _ => 0) <$> reg s;
     pc := 0;
     n_flag := false;
     z_flag := false;
     label_hit_counts := label_hit_counts s;
     linked_labels := ∅;
     sym_table := ∅;
     mem := [];
     forbidden_instructions := ∅;
     forbid_recursion := false;
     require_recursion := false;
     forbid_loops := false;
     check_dead_code := check_dead_code s;
     recursive_labels := recursive_labels s;
     cycle_count := 0;
     execute_count := 0;
     ld_cycle := -1;
     ld_dst := PyInt (-1);
     flag_cycle := -1;
     last_dst := PyInt (-1);
     stdin := stdin s;
     stdout := stdout s;
     entropy := entropy s |}.

(** The module as first imported: every global at its initial value. *)
Definition register_names : list string :=
  ["x0"; "x1"; "x2"; "x3"; "x4"; "x5"; "x6"; "x7"; "x8"; "x9"; "x10";
   "x11"; "x12"; "x13"; "x14"; "x15"; "x16"; "x17"; "x18"; "x19"; "x20";
   "x21"; "x22"; "x23"; "x24"; "x25"; "x26"; "x27"; "x28"; "fp"; "lr"; "sp";
   "xzr"].

Definition initial : machine :=
  {| asm := [];
     original_break := 0;
     brk := 0;
     reg := list_to_map (map (fun r => (r, 0)) register_names);
     pc := 0;
     n_flag := false;
     z_flag := false;
     label_hit_counts := ∅;
     linked_labels := ∅;
     sym_table := ∅;
     mem := [];
     forbidden_instructions := ∅;
     forbid_recursion := false;
     require_recursion := false;
     forbid_loops := false;
     check_dead_code := false;
     recursive_labels := ∅;
     cycle_count := 0;
     execute_count := 0;
     ld_cycle := -1;
     ld_dst := PyInt (-1);
     flag_cycle := -1;
     last_dst := PyInt (-1);
     stdin := [];
     stdout := [];
     entropy := fun _ => 0 |}.

(** A host that registers no callable. *)
Definition no_host (f : nat) (s : machine) : result machine := Ok s.

(** ** The rest of [run] *)

(** The keys of the label lines of the instruction stream, colon included. *)
Definition label_keys (code : list line) : list string :=
  omap (fun ln => match ln with
                  | Lbl n => Some (String.append n ":")
                  | Ins _ => None
                  end) code.

(** [label_hit_counts = dict(zip(labels, [0] * len(labels)))] over the label
    lines and the linked labels. *)
Definition init_label_hit_counts (s : machine) : machine :=
  let labels := (label_keys (asm s) ++ map fst (map_to_list (linked_labels s)))%list in
  set_label_hit_counts (list_to_map (map (fun k => (k, 0)) labels)) s.

(** The checks of the recursion policy made when the loop has ended. *)
Definition recursion_policy (s : machine) (recursed : gset string) : result unit :=
  let some := negb (bool_decide (recursed = ∅)) in
  _ ← raise_if (some && forbid_recursion s)
        (ValueError "recursion occurred in program but it should not have");
  _ ← raise_if (negb some && require_recursion s)
        (ValueError "recursion did not occur in program but it should have");
  raise_if (some && negb (bool_decide (recursive_labels s ∖ recursed = ∅)))
    (ValueError "recursive calls do not include required call").

(** [run], from the point where [check_static_rules] has returned: the label
    table is built, the loop runs, the recursion policy is checked.  [None]
    when [fuel] turns did not reach the end of the program. *)
Definition run_checked (host : nat -> machine -> result machine) (fuel : nat)
    (s : machine) : result (option machine) :=
  r ← run_loop host fuel (init_label_hit_counts s, ∅);
  match r with
  | None => Ok None
  | Some (s', recursed) => _ ← recursion_policy s' recursed; Ok (Some s')
  end.

(** ** Small programs used to exercise the simulator *)

(** The program of the round trip: [a:.dword v], then [ldur x0,=a] and
    [ldur x1,[x0]]; the value found in [x1]. *)
Definition ldur_after_dword (v : Z) : result (option Z) :=
  s ← parse [Data (Dword "a" [v])] initial;
  s ← execute no_host (ILdurVar "x0" "a") s;
  s ← execute no_host (ILoad Ldur "x1" (Base "x0")) s;
  Ok (reg s !! "x1").

(** [q] is the quotient of [x] by [y] rounded toward minus infinity. *)
Definition floor_quotient (x y q : Z) : Prop :=
  (0 < y /\ y * q <= x < y * q + y) \/ (y < 0 /\ y * q + y < x <= y * q).

(** A division instruction run with [x1 = -7] and [x2 = 2]; the value left
    in [x0]. *)
Definition divide_minus7_by_2 (i : instr) : result (option Z) :=
  s ← execute no_host i (set_reg "x2" 2 (set_reg "x1" (-7) initial));
  Ok (reg s !! "x0").

(** After parsing a program without data, [brk(original_break + 1)]: the
    original break, the value left in [x0] and the new length of memory. *)
Definition brk_one_past_break : result (Z * option Z * Z) :=
  s ← parse [] initial;
  let s := set_reg "x0" (original_break s + 1) (set_reg "x8" 214 s) in
  s1 ← execute no_host ISvc0 s;
  Ok (original_break s, reg s1 !! "x0", py_len (mem s1)).

(** A machine that has just run [cmp x0,1] with [x0 = 0] as its first
    instruction: N is set and [flag_cycle] is the cycle before the next one. *)
Definition branch_code : list line :=
  [Ins (ICmp "x0" (Imm 1)); Ins (IBcond MI "done"); Lbl "done"].

Definition after_cmp : result machine :=
  execute no_host (ICmp "x0" (Imm 1)) (set_asm branch_code initial).

(** Cycles charged to the conditional branch [b.<c> done] run right after
    that [cmp]. *)
Definition branch_cost (c : cond) : result Z :=
  s ← after_cmp;
  s' ← execute no_host (IBcond c "done") s;
  Ok (cycle_count s' - cycle_count s).

(** The same machine written out field by field. *)
Definition just_compared : machine :=
  set_flag_cycle 0 (set_cycle_count 1 (set_n_flag true (set_asm branch_code initial))).

(** A program whose data section is [a:.dword 1]: memory is the 4096-byte
    stack followed by 8 bytes. *)
Definition one_dword : result machine := parse [Data (Dword "a" [1])] initial.

(** An access through [x0 = len(mem) - 2] on that machine: the length of
    memory before and after the instruction. *)
Definition access_two_before_end (i : instr) : result (Z * Z) :=
  s ← one_dword;
  let s := set_reg "x0" (py_len (mem s) - 2) s in
  s' ← execute no_host i s;
  Ok (py_len (mem s), py_len (mem s')).

(** [s'] has the flags of [s]. *)
Definition same_flags (s s' : machine) : Prop :=
  n_flag s' = n_flag s /\ z_flag s' = z_flag s.

(** The flag writers, [cmp] and the s forms, with the result their flags
    describe: the value written to [rd], or for [cmp] the difference of the
    operands.  [None] for every other instruction. *)
Definition flag_result (i : instr) (s : machine) : option (result Z) :=
  match i with
  | IArith op true _ rn o =>
      Some (x ← getitem (reg s) rn; y ← operand_value o s; Ok (arith_value op x y))
  | ICmp rn o =>
      Some (x ← getitem (reg s) rn; y ← operand_value o s; Ok (x - y))
  | _ => None
  end.


(** [subs x1,x0,1] on the machine at start-up. *)
Definition after_subs : machine :=
  match execute no_host (IArith Sub true "x1" "x0" (Imm 1)) initial with
  | Ok m => m
  | Raise _ => initial
  end.

(** A program that lowers [sp] below zero and then meets a label line. *)
Definition sp_drop_then_label : list item :=
  [Code (Ins (IArith Sub false "sp" "sp" (Imm 4096))); Code (Lbl "loop")].

Definition at_label_with_negative_sp : machine :=
  match (s ← parse sp_drop_then_label initial;
         run_iter no_host (init_label_hit_counts s, ∅)) with
  | Ok (m, _) => m
  | Raise _ => initial
  end.

(** A label line met with a well-formed stack pointer. *)
Definition at_label : machine :=
  match parse [Code (Lbl "loop")] initial with
  | Ok m => init_label_hit_counts m
  | Raise _ => initial
  end.

(** A program whose only instruction writes to [xzr]. *)
Definition before_mov_xzr : machine :=
  match parse [Code (Ins (IMov "xzr" (Imm 5)))] initial with
  | Ok m => init_label_hit_counts m
  | Raise _ => initial
  end.

Definition after_mov_xzr : machine :=
  match run_iter no_host (before_mov_xzr, ∅) with
  | Ok (m, _) => m
  | Raise _ => initial
  end.

(** ** What an instruction may touch *)

(** The registers an instruction form assigns to. *)
Definition written_regs (i : instr) : list string :=
  match i with
  | ILoad _ rt _ => [rt]
  | ILdurVar rt _ => [rt]
  | IStore _ _ _ => []
  | IMov rd _ => [rd]
  | IAsr rd _ _ => [rd]
  | IShift _ rd _ _ => [rd]
  | IArith _ _ rd _ _ => [rd]
  | IMul rd _ _ => [rd]
  | IUdiv rd _ _ => [rd]
  | ISdiv rd _ _ => [rd]
  | ICmp _ _ => []
  | ICbnz _ _ => []
  | ICbz _ _ => []
  | IB _ => []
  | IBcond _ _ => []
  | IBl _ => ["lr"]
  | IBrLr => []
  | ISvc0 => ["x0"]
  | IUnsupported _ => []
  end.

(** The forms that assign to [mem]. *)
Definition writes_memory (i : instr) : bool :=
  match i with
  | IStore _ _ _ => true
  | ISvc0 => true
  | _ => false
  end.

(** What one [execute] leaves alone, relative to the state [s] it started
    from and the cycle [cur] it started in. *)
Definition effect_within (cur : Z) (regs : list string) (wm : bool)
    (s s' : machine) : Prop :=
  execute_count s' = execute_count s
  /\ (ld_cycle s <= cur -> cycle_count s <= cycle_count s')
  /\ (ld_cycle s' = ld_cycle s \/ ld_cycle s' = cur)
  /\ (forall r, r ∉ regs -> reg s' !! r = reg s !! r)
  /\ (wm = false -> mem s' = mem s)
  /\ asm s' = asm s
  /\ sym_table s' = sym_table s
  /\ linked_labels s' = linked_labels s.

(** ** Values as memory holds them *)

(** [x] reduced to [bits] bits and read as a two's-complement number. *)
Definition sign_wrap (bits x : Z) : Z :=
  let u := x mod 2 ^ bits in
  if 2 ^ (bits - 1) <=? u then u - 2 ^ bits else u.

(** The range of register values a store form accepts: [stur] encodes
    unsigned, the narrower stores encode signed on 8 bytes. *)
Definition storable (k : store_kind) (v : Z) : bool :=
  match k with
  | Stur => (0 <=? v) && (v <? 2 ^ 64)
  | _ => (- 2 ^ 63 <=? v) && (v <? 2 ^ 63)
  end.

(** [sturb x0,[sp]] and [ldursb x1,[sp]] on a freshly parsed machine. *)
Definition after_sturb : machine :=
  match execute no_host (IStore Sturb "x0" (Base "sp")) at_label with
  | Ok m => m
  | Raise _ => initial
  end.

Definition after_ldursb : machine :=
  match execute no_host (ILoad Ldursb "x1" (Base "sp")) at_label with
  | Ok m => m
  | Raise _ => initial
  end.

(** ** [getdata] *)

(** [range(0, size, step)] for a positive [step]. *)
Definition range_step (size step : Z) : list Z :=
  map (fun j => Z.of_nat j * step) (seq 0 (Z.to_nat ((size + step - 1) / step))).

(** A [for] loop that appends one computed element per turn and stops at the
    first exception. *)
Fixpoint for_each {A B} (f : A -> result B) (l : list A) : result (list B) :=
  match l with
  | [] => Ok []
  | x :: rest => y ← f x; ys ← for_each f rest; Ok (y :: ys)
  end.

(** [int.from_bytes(bytes(mem[index + i:index + i + width]), 'little')] for
    [i] in [range(0, size, width)]. *)
Definition read_numbers (width index size : Z) (m : list Z) : result (list Z) :=
  for_each (fun i => bs ← py_bytes (py_slice m (index + i) (index + i + width));
                     Ok (from_bytes bs false))
    (range_step size width).

(** [getdata(variable)]: the declared data decoded by directive type, the
    one-element list of a constant, or [None] after the message for an
    unknown type code. *)
Definition getdata (variable : string) (s : machine) : result (option (list Z)) :=
  match sym_table s !! type_key variable with
  | Some ty =>
      index ← getitem (sym_table s) variable;
      size ← getitem (sym_table s) (size_key variable);
      if ty =? 0 then
        bs ← py_bytes (py_slice (mem s) index (index + size));
        cs ← ascii_only bs; Ok (Some cs)
      else if ty =? 1 then (l ← read_numbers 8 index size (mem s); Ok (Some l))
      else if ty =? 2 then
        bs ← py_bytes (py_slice (mem s) index (index + size)); Ok (Some bs)
      else if ty =? 3 then (l ← read_numbers 4 index size (mem s); Ok (Some l))
      else if ty =? 4 then (l ← read_numbers 2 index size (mem s); Ok (Some l))
      else if ty =? 5 then (l ← read_numbers 1 index size (mem s); Ok (Some l))
      else Ok None
  | None => v ← getitem (sym_table s) variable; Ok (Some [v])
  end.

(** ** Reading a program back *)

(** The code lines of a program, in source order. *)
Definition code_lines (items : list item) : list line :=
  omap (fun it => match it with Code ln => Some ln | Data _ => None end) items.

(** The element width, name and values of a numeric directive. *)
Definition directive_numbers (d : directive) : option (nat * string * list Z) :=
  match d with
  | Dword name numbers => Some (8%nat, name, numbers)
  | Word name numbers => Some (4%nat, name, numbers)
  | Hword name numbers => Some (2%nat, name, numbers)
  | Byte name numbers => Some (1%nat, name, numbers)
  | _ => None
  end.

(** A declaration of three dwords on the machine at start-up. *)
Definition declared_three : machine * Z :=
  match parse_directive (Dword "a" [1; 2; 3]) initial 0 with
  | Ok r => r
  | Raise _ => (initial, 0)
  end.

(** A program with data, an instruction and a label, and its parse. *)
Definition small_program : list item :=
  [Data (Dword "a" [1; 2; 3]); Code (Ins (ILdurVar "x0" "a")); Code (Lbl "done")].

Definition parsed_small : machine :=
  match parse small_program initial with
  | Ok m => m
  | Raise _ => initial
  end.

(** ** Branch forms *)

(** The five branch forms that take a label. *)
Definition label_branches (c : cond) (rn label : string) : list instr :=
  [IB label; IBl label; IBcond c label; ICbz rn label; ICbnz rn label].

(** The names that [register_regex] matches anywhere in a line. *)
Definition bare_register_names : list string := ["lr"; "fp"; "sp"; "xzr"].

(** Machines about to run one line, used to exercise single turns. *)
Definition ready (items : list item) : machine :=
  match parse items initial with
  | Ok m => init_label_hit_counts m
  | Raise _ => initial
  end.

Definition at_branch : machine :=
  ready [Code (Ins (IB "done")); Code (Lbl "done")].

Definition at_exit : machine :=
  set_reg "x8" 93 (ready [Code (Ins ISvc0)]).

Definition at_call : machine :=
  ready [Code (Ins (IBl "f")); Code (Lbl "f"); Code (Ins IBrLr)].

Definition brk_request (new_brk : Z) : machine :=
  set_reg "x0" new_brk (set_reg "x8" 214 parsed_small).

Definition at_write : machine :=
  set_reg "x2" 8 (set_reg "x1" 4096 (set_reg "x0" 1 (set_reg "x8" 64 parsed_small))).

Definition at_read : machine :=
  set_stdin [[104; 105]]
    (set_reg "x2" 2 (set_reg "x1" 4096 (set_reg "x8" 63 parsed_small))).

(** * Properties *)

(** ** Byte strings *)

Lemma le_bytes_length k n : length (le_bytes k n) = k.
Proof. revert n. induction k as [|k IH]; intros n; simpl; [done | by rewrite IH]. Qed.

Lemma le_bytes_range k n : Forall (fun b => 0 <= b < 256) (le_bytes k n).
Proof.
  revert n. induction k as [|k IH]; intros n; simpl; constructor.
  - apply Z.mod_pos_bound. lia.
  - apply IH.
Qed.

(** Reading back the [k] low bytes of [n] gives [n] modulo [256^k]. *)
Lemma le_value_le_bytes k n : le_value (le_bytes k n) = n mod 256 ^ Z.of_nat k.
Proof.
  revert n. induction k as [|k IH]; intros n.
  - simpl. by rewrite Z.mod_1_r.
  - cbn [le_bytes le_value]. rewrite IH.
    rewrite Nat2Z.inj_succ, Z.pow_succ_r by lia.
    rewrite Z.rem_mul_r; [done | lia | ].
    apply Z.pow_pos_nonneg; lia.
Qed.

Lemma py_bytes_ok l : Forall (fun b => 0 <= b < 256) l -> py_bytes l = Ok l.
Proof.
  intros H. unfold py_bytes.
  assert (forallb (fun x => (0 <=? x) && (x <? 256)) l = true) as ->; [|done].
  apply forallb_forall. intros x Hx.
  rewrite Forall_forall in H. specialize (H x).
  rewrite list_elem_of_In in H. specialize (H Hx). lia.
Qed.

(** ** Slices *)

Lemma py_len_app {A} (l k : list A) : py_len (l ++ k) = py_len l + py_len k.
Proof. unfold py_len. rewrite length_app. lia. Qed.

Lemma py_len_nonneg {A} (l : list A) : 0 <= py_len l.
Proof. unfold py_len. lia. Qed.

Lemma py_len_repeat {A} (x : A) n : py_len (repeat x n) = Z.of_nat n.
Proof. unfold py_len. by rewrite repeat_length. Qed.

(** The slice that starts where [l] ends and spans [xs] is [xs]. *)
Lemma py_slice_middle {A} (l xs k : list A) :
  py_slice (l ++ xs ++ k) (py_len l) (py_len l + py_len xs) = xs.
Proof.
  unfold py_slice, slice_bound. rewrite !py_len_app.
  pose proof (py_len_nonneg l). pose proof (py_len_nonneg xs).
  pose proof (py_len_nonneg k).
  destruct (Z.ltb_spec (py_len l) 0); [lia|].
  destruct (Z.ltb_spec (py_len l + py_len xs) 0); [lia|].
  rewrite !Z.min_l by lia.
  replace (py_len l + py_len xs - py_len l) with (py_len xs) by lia.
  unfold py_len. rewrite !Nat2Z.id.
  rewrite drop_app_length. apply take_app_length.
Qed.

(** The prefix slice [l[:n]] of an extended list. *)
Lemma py_slice_prefix {A} (l k : list A) :
  py_slice (l ++ k) 0 (py_len l) = l.
Proof.
  pose proof (py_slice_middle [] l k) as H. simpl in H.
  unfold py_len at 1 2 in H. simpl in H. exact H.
Qed.

(** ** Frame facts about the hazard bookkeeping *)

Lemma reg_stall host_cur srcs p s : reg (stall host_cur srcs p s) = reg s.
Proof. destruct p; simpl; try destruct (hazard _ _ _ _); reflexivity. Qed.

Lemma mem_stall cur srcs p s : mem (stall cur srcs p s) = mem s.
Proof. destruct p; simpl; try destruct (hazard _ _ _ _); reflexivity. Qed.

Lemma address_stall cur srcs p a s : address a (stall cur srcs p s) = address a s.
Proof. destruct a; simpl; by rewrite reg_stall. Qed.

Lemma check_bounds_stall cur srcs p addr c s :
  check_bounds addr c (stall cur srcs p s) = check_bounds addr c s.
Proof. unfold check_bounds. by rewrite reg_stall, mem_stall. Qed.

(** The bounds test passes exactly on the window it encodes. *)
Lemma check_bounds_window addr c s sp :
  reg s !! "sp" = Some sp ->
  check_bounds addr c s = Ok tt <-> sp <= addr /\ addr + c <= py_len (mem s).
Proof.
  intros Hsp. unfold check_bounds, getitem. rewrite Hsp. simpl.
  unfold raise_if.
  destruct (Z.ltb_spec addr sp), (Z.gtb_spec addr (py_len (mem s) - c)); simpl;
    split; (try discriminate); try lia; done.
Qed.

Lemma check_bounds_fails addr c s sp :
  reg s !! "sp" = Some sp ->
  ~ (sp <= addr /\ addr + c <= py_len (mem s)) ->
  check_bounds addr c s = Raise oob.
Proof.
  intros Hsp Hout. unfold check_bounds, getitem. rewrite Hsp. simpl.
  unfold raise_if.
  destruct (Z.ltb_spec addr sp), (Z.gtb_spec addr (py_len (mem s) - c)); simpl;
    try done; lia.
Qed.

(** A load whose address passes the test of its form returns the decoded
    slice in [rt] and leaves memory alone. *)
Lemma exec_load_ok cur k rt a s addr sp bs :
  address a s = Ok addr ->
  reg s !! "sp" = Some sp ->
  sp <= addr -> addr + load_limit k a <= py_len (mem s) ->
  py_bytes (py_slice (mem s) addr (addr + load_width k)) = Ok bs ->
  exists s', exec_load cur k rt a s = Ok s'
    /\ reg s' !! rt = Some (from_bytes bs (load_signed k))
    /\ mem s' = mem s.
Proof.
  intros Ha Hsp Hlo Hhi Hbs. unfold exec_load.
  rewrite address_stall, Ha. simpl.
  rewrite check_bounds_stall.
  assert (check_bounds addr (load_limit k a) s = Ok tt) as ->.
  { by apply (check_bounds_window _ _ _ sp). }
  simpl. rewrite mem_stall, Hbs. simpl.
  eexists. split; [reflexivity|]. split.
  - simpl. apply lookup_insert_eq.
  - simpl. apply mem_stall.
Qed.

(** ** Declared symbols *)

Lemma append_neq_self a b : b <> "" -> String.append a b <> a.
Proof.
  intros Hb. induction a as [|c a IH]; simpl.
  - exact Hb.
  - intros H. injection H as H. by apply IH.
Qed.

Lemma declare_lookup name index size type t :
  declare name index size type t !! name = Some index.
Proof.
  unfold declare, type_key, size_key.
  rewrite lookup_insert_ne by (apply append_neq_self; discriminate).
  rewrite lookup_insert_ne by (apply append_neq_self; discriminate).
  apply lookup_insert_eq.
Qed.

(** Every signed 64-bit value is accepted by the [.dword] encoder. *)
Lemma encode_dword_int64 v :
  - 2 ^ 63 <= v < 2 ^ 63 -> encode_number 8 v = Ok (le_bytes 8 v).
Proof.
  intros Hv. unfold encode_number, number_signed, to_bytes.
  change (255 ^ Z.of_nat 8) with 17878103347812890625.
  change (8 * Z.of_nat 8) with 64.
  change (2 ^ (64 - 1)) with (2 ^ 63).
  change (2 ^ 63) with 9223372036854775808 in *.
  change (2 ^ 64) with 18446744073709551616.
  destruct (Z.leb_spec 0 v); simpl.
  - rewrite (proj2 (Z.leb_le v _)) by lia. simpl.
    by rewrite (proj2 (Z.ltb_lt v _)) by lia.
  - rewrite (proj2 (Z.leb_le _ v)) by lia.
    by rewrite (proj2 (Z.ltb_lt v _)) by lia.
Qed.

(** What [ldur] reads back from the bytes of a signed 64-bit value. *)
Lemma from_bytes_dword v :
  - 2 ^ 63 <= v < 2 ^ 63 ->
  from_bytes (le_bytes 8 v) false = if v <? 0 then v + 2 ^ 64 else v.
Proof.
  intros Hv. unfold from_bytes. simpl andb. cbv iota.
  rewrite le_value_le_bytes.
  change (256 ^ Z.of_nat 8) with (2 ^ 64).
  change (2 ^ 63) with 9223372036854775808 in *.
  change (2 ^ 64) with 18446744073709551616.
  destruct (Z.ltb_spec v 0).
  - symmetry. apply Z.mod_unique with (q := -1); lia.
  - apply Z.mod_small. lia.
Qed.

(** ** Round trip of a [.dword] through [ldur] *)

#[local] Arguments le_bytes : simpl never.

(** C2, as the code has it: for every [v] of the signed 64-bit range the
    directive [<name>:.dword v] appends the 8 bytes of [v] at the current end
    of memory and records that address; a later [ldur rt,[rn]] with [rn]
    holding the address, inside the valid window, leaves in [rt] the unsigned
    reading of those bytes: [v] itself when [v] is not negative, and
    [v + 2^64] when it is. *)
Theorem dword_ldur_unsigned_roundtrip (host : nat -> machine -> result machine)
    (s : machine) (name rt rn : string) (v : Z) :
  - 2 ^ 63 <= v < 2 ^ 63 ->
  exists s1,
    parse_directive (Dword name [v]) s (py_len (mem s)) = Ok (s1, py_len (mem s) + 8)
    /\ sym_table s1 !! name = Some (py_len (mem s))
    /\ mem s1 = (mem s ++ le_bytes 8 v)%list
    /\ forall (s2 : machine) (tail : list Z) (sp : Z),
         mem s2 = (mem s1 ++ tail)%list ->
         reg s2 !! rn = Some (py_len (mem s)) ->
         reg s2 !! "sp" = Some sp ->
         sp <= py_len (mem s) ->
         exists s3,
           execute host (ILoad Ldur rt (Base rn)) s2 = Ok s3
           /\ reg s3 !! rt = Some (if v <? 0 then v + 2 ^ 64 else v).
Proof.
  intros Hv.
  unfold parse_directive, numbers_directive. cbn [extend_numbers].
  rewrite (encode_dword_int64 v Hv). simpl.
  eexists. split; [reflexivity|]. split; [apply declare_lookup|].
  split; [reflexivity|].
  intros s2 tail sp Hmem Hrn Hsp Hle. simpl in Hmem.
  unfold execute.
  set (s2' := set_last_dst _ _).
  assert (Hslice : py_slice (mem s2') (py_len (mem s)) (py_len (mem s) + load_width Ldur)
                   = le_bytes 8 v).
  { subst s2'. simpl mem. rewrite Hmem, <- app_assoc.
    replace (load_width Ldur) with (py_len (le_bytes 8 v))
      by (unfold py_len; by rewrite le_bytes_length).
    apply py_slice_middle. }
  destruct (exec_load_ok (cycle_count s2) Ldur rt (Base rn) s2'
              (py_len (mem s)) sp (le_bytes 8 v)) as (s3 & Hs3 & Hrt & _).
  - subst s2'. simpl. unfold getitem. by rewrite Hrn.
  - exact Hsp.
  - exact Hle.
  - subst s2'. simpl mem. rewrite Hmem, !py_len_app.
    pose proof (py_len_nonneg tail).
    assert (py_len (le_bytes 8 v) = 8) as ->
      by (unfold py_len; by rewrite le_bytes_length).
    simpl. lia.
  - rewrite Hslice. apply py_bytes_ok, le_bytes_range.
  - exists s3. split; [exact Hs3|].
    rewrite Hrt. simpl load_signed. by rewrite (from_bytes_dword v Hv).
Qed.

Lemma dword_ldur_unsigned_roundtrip_witness :
  - 2 ^ 63 <= 5 < 2 ^ 63 /\
  exists s1,
    parse_directive (Dword "a" [5]) initial (py_len (mem initial))
      = Ok (s1, py_len (mem initial) + 8)
    /\ sym_table s1 !! "a" = Some (py_len (mem initial))
    /\ mem s1 = (mem initial ++ le_bytes 8 5)%list
    /\ forall (s2 : machine) (tail : list Z) (sp : Z),
         mem s2 = (mem s1 ++ tail)%list ->
         reg s2 !! "x0" = Some (py_len (mem initial)) ->
         reg s2 !! "sp" = Some sp ->
         sp <= py_len (mem initial) ->
         exists s3,
           execute no_host (ILoad Ldur "x1" (Base "x0")) s2 = Ok s3
           /\ reg s3 !! "x1" = Some (if 5 <? 0 then 5 + 2 ^ 64 else 5).
Proof.
  split; [lia|].
  apply (dword_ldur_unsigned_roundtrip no_host initial "a" "x1" "x0" 5). lia.
Defined.

(** The claim of C2 as stated fails at [v = -1]: the program declares
    [a:.dword -1], loads the address of [a] and reads it with [ldur]; the
    register then holds [2^64 - 1], not [-1]. *)
Lemma dword_ldur_negative_counterexample :
  - 2 ^ 63 <= -1 < 2 ^ 63
  /\ ldur_after_dword (-1) = Ok (Some 18446744073709551615)
  /\ ldur_after_dword (-1) <> Ok (Some (-1)).
Proof.
  split; [lia|]. split; [by vm_compute|].
  assert (ldur_after_dword (-1) = Ok (Some 18446744073709551615)) as ->
    by (by vm_compute).
  discriminate.
Qed.

(** ** Division *)

Lemma floor_quotient_div x y : y <> 0 -> floor_quotient x y (x / y).
Proof.
  intros Hy. unfold floor_quotient.
  pose proof (Z.div_mod x y Hy) as Hdm.
  destruct (Z.lt_trichotomy y 0) as [Hneg | [Hz | Hpos]]; [right | lia | left].
  - pose proof (Z.mod_neg_bound x y Hneg). lia.
  - pose proof (Z.mod_pos_bound x y Hpos). lia.
Qed.

(** C3, as the code has it: [udiv] and [sdiv] run the same handler, which
    divides with Python's [//]: the quotient rounded toward minus infinity
    (floor), and [ZeroDivisionError] for a zero divisor. *)
Theorem udiv_sdiv_floor_division (host : nat -> machine -> result machine)
    (s : machine) (rd rn rm : string) (x y : Z) :
  reg s !! rn = Some x ->
  reg s !! rm = Some y ->
  execute host (IUdiv rd rn rm) s = execute host (ISdiv rd rn rm) s
  /\ (y = 0 -> execute host (ISdiv rd rn rm) s = Raise ZeroDivisionError)
  /\ (y <> 0 ->
      exists s' q, execute host (ISdiv rd rn rm) s = Ok s'
        /\ reg s' !! rd = Some q /\ q = x / y /\ floor_quotient x y q).
Proof.
  intros Hn Hm. split; [reflexivity|].
  unfold execute, exec_div. rewrite reg_stall. simpl reg.
  unfold getitem. rewrite Hn, Hm. simpl. unfold floordiv.
  split.
  - intros ->. reflexivity.
  - intros Hy. destruct (Z.eqb_spec y 0) as [|_]; [contradiction|]. simpl.
    eexists _, (x / y). split; [reflexivity|]. split.
    + simpl. apply lookup_insert_eq.
    + split; [reflexivity | by apply floor_quotient_div].
Qed.

Lemma udiv_sdiv_floor_division_witness :
  reg (set_reg "x2" 2 (set_reg "x1" (-7) initial)) !! "x1" = Some (-7)
  /\ reg (set_reg "x2" 2 (set_reg "x1" (-7) initial)) !! "x2" = Some 2
  /\ 2 <> 0
  /\ exists s' q,
       execute no_host (ISdiv "x0" "x1" "x2")
         (set_reg "x2" 2 (set_reg "x1" (-7) initial)) = Ok s'
       /\ reg s' !! "x0" = Some q /\ q = -7 / 2 /\ floor_quotient (-7) 2 q.
Proof.
  split; [reflexivity|]. split; [reflexivity|]. split; [lia|].
  apply (udiv_sdiv_floor_division no_host
           (set_reg "x2" 2 (set_reg "x1" (-7) initial)) "x0" "x1" "x2" (-7) 2);
    [reflexivity | reflexivity | lia].
Defined.

(** The claim of C3 as stated fails at [reg[rn] = -7], [reg[rm] = 2]: both
    mnemonics leave [-4], while the quotient truncated toward zero is [-3]. *)
Lemma sdiv_truncation_counterexample :
  divide_minus7_by_2 (ISdiv "x0" "x1" "x2") = Ok (Some (-4))
  /\ divide_minus7_by_2 (IUdiv "x0" "x1" "x2") = Ok (Some (-4))
  /\ Z.quot (-7) 2 = -3
  /\ divide_minus7_by_2 (ISdiv "x0" "x1" "x2") <> Ok (Some (Z.quot (-7) 2)).
Proof.
  assert (H : divide_minus7_by_2 (ISdiv "x0" "x1" "x2") = Ok (Some (-4)))
    by (by vm_compute).
  split; [exact H|]. split; [by vm_compute|]. split; [reflexivity|].
  rewrite H. discriminate.
Qed.

(** ** The [brk] system call *)

Lemma sys_brk_grow s :
  reg s !! "x0" = Some (original_break s + 1) ->
  py_len (mem s) = original_break s ->
  sys_brk s = Ok (set_brk (original_break s + 1)
                    (set_mem (mem s ++ repeat 0 (Z.to_nat 4096)) s)).
Proof.
  intros Hx0 Hlen. unfold sys_brk, getitem. rewrite Hx0.
  cbn [mbind result_bind].
  destruct (Z.ltb_spec (original_break s + 1) (original_break s)); [lia|].
  destruct (Z.eqb_spec (original_break s + 1) (original_break s)); [lia|].
  replace (original_break s + 1 - original_break s) with 1 by lia.
  change (1 + 4096 - 1 mod 4096) with 4096.
  change (py_assert (0 <=? 1) _) with (Ok tt).
  change (raise_if (4096 >? HEAP_SIZE) _) with (Ok tt).
  cbn [mbind result_bind].
  destruct (Z.gtb_spec (py_len (mem s)) (4096 + original_break s)); [lia|].
  cbn [reg set_mem]. rewrite Hx0. reflexivity.
Qed.

Lemma sys_brk_reset s :
  reg s !! "x0" = Some (original_break s) ->
  sys_brk s = Ok (set_mem (py_slice (mem s) 0 (original_break s))
                    (set_reg "x0" (original_break s)
                       (set_brk (original_break s) s))).
Proof.
  intros Hx0. unfold sys_brk, getitem. rewrite Hx0.
  cbn [mbind result_bind].
  rewrite Z.ltb_irrefl, Z.eqb_refl. reflexivity.
Qed.

Lemma exec_svc_brk (s : machine) :
  reg s !! "x8" = Some 214 -> exec_svc s = sys_brk s.
Proof. intros H. unfold exec_svc, getitem. rewrite H. reflexivity. Qed.

(** C4, as the code has it: with the heap empty, [brk(original_break + 1)]
    grows memory by exactly 4096 bytes, sets [brk] to the requested address and
    leaves [x0] holding that requested address, [original_break + 1]; a
    following [brk(original_break)] gives memory back as it was and returns
    [original_break] in [x0]. *)
Theorem brk_grow_then_shrink (host : nat -> machine -> result machine) (s : machine) :
  reg s !! "x8" = Some 214 ->
  reg s !! "x0" = Some (original_break s + 1) ->
  py_len (mem s) = original_break s ->
  exists s1,
    execute host ISvc0 s = Ok s1
    /\ py_len (mem s1) = py_len (mem s) + 4096
    /\ reg s1 !! "x0" = Some (original_break s + 1)
    /\ brk s1 = original_break s + 1
    /\ original_break s1 = original_break s
    /\ exists s2,
         execute host ISvc0 (set_reg "x0" (original_break s) s1) = Ok s2
         /\ mem s2 = mem s
         /\ reg s2 !! "x0" = Some (original_break s)
         /\ brk s2 = original_break s.
Proof.
  intros Hx8 Hx0 Hlen.
  unfold execute at 1. rewrite exec_svc_brk by exact Hx8.
  rewrite sys_brk_grow by assumption.
  eexists. split; [reflexivity|].
  cbn [mem reg brk original_break set_brk set_mem set_last_dst
       set_execute_count set_cycle_count].
  split; [by rewrite py_len_app, py_len_repeat|].
  split; [exact Hx0|]. split; [reflexivity|]. split; [reflexivity|].
  unfold execute. rewrite exec_svc_brk.
  2:{ cbn. rewrite lookup_insert_ne by discriminate. exact Hx8. }
  rewrite sys_brk_reset by (cbn; apply lookup_insert_eq).
  eexists. split; [reflexivity|].
  cbn [mem reg brk original_break set_brk set_mem set_last_dst set_reg set_regs
       set_execute_count set_cycle_count].
  split; [|split; [apply lookup_insert_eq | reflexivity]].
  rewrite <- Hlen. apply py_slice_prefix.
Qed.

Lemma brk_grow_then_shrink_witness :
  reg (set_reg "x0" 1 (set_reg "x8" 214 initial)) !! "x8" = Some 214
  /\ reg (set_reg "x0" 1 (set_reg "x8" 214 initial)) !! "x0" = Some (0 + 1)
  /\ py_len (mem (set_reg "x0" 1 (set_reg "x8" 214 initial))) = 0
  /\ exists s1,
    execute no_host ISvc0 (set_reg "x0" 1 (set_reg "x8" 214 initial)) = Ok s1
    /\ py_len (mem s1) = 0 + 4096
    /\ reg s1 !! "x0" = Some (0 + 1)
    /\ brk s1 = 0 + 1
    /\ original_break s1 = 0
    /\ exists s2,
         execute no_host ISvc0 (set_reg "x0" 0 s1) = Ok s2
         /\ mem s2 = []
         /\ reg s2 !! "x0" = Some 0
         /\ brk s2 = 0.
Proof.
  split; [reflexivity|]. split; [reflexivity|]. split; [reflexivity|].
  apply (brk_grow_then_shrink no_host (set_reg "x0" 1 (set_reg "x8" 214 initial)));
    reflexivity.
Defined.

(** The claim of C4 as stated fails on a freshly parsed program, whose break
    is 4096: after [brk(4097)] memory has grown to 8192 bytes, but [x0] holds
    4097, not [original_break + 4096 = 8192]. *)
Lemma brk_return_value_counterexample :
  brk_one_past_break = Ok (4096, Some 4097, 8192)
  /\ 4097 <> 4096 + 4096.
Proof. split; [by vm_compute | lia]. Qed.

(** ** Conditional branches and the flag-use penalty *)

(** The seven other conditional branches charge one more cycle when they
    follow the flag writer. *)
Lemma bcond_flag_use (host : nat -> machine -> result machine) (s : machine)
    (c : cond) (label : string) (i : nat) :
  c <> MI ->
  cycle_count s - flag_cycle s <= 1 ->
  mentions_register label = false ->
  find_label label (asm s) = Some i ->
  exists s',
    execute host (IBcond c label) s = Ok s'
    /\ cycle_count s' = cycle_count s + 1 + 1 + (if cond_holds c s then 1 else 0).
Proof.
  intros Hc Hflag Hreg Hlab.
  unfold execute, exec_bcond. rewrite Hreg. cbn [raise_if mbind result_bind].
  assert (checks_flag_cycle c = true) as -> by (by destruct c).
  unfold flag_stall. cbn [flag_cycle set_last_dst set_execute_count set_cycle_count].
  destruct (Z.leb_spec (cycle_count s - flag_cycle s) 1); [|lia].
  match goal with |- context [cond_holds c ?m] =>
    replace (cond_holds c m) with (cond_holds c s) by (by destruct c) end.
  destruct (cond_holds c s).
  - unfold goto. cbn [asm add_cycles set_last_dst set_execute_count set_cycle_count].
    rewrite Hlab. cbn [mbind result_bind].
    eexists. split; [reflexivity|]. cbn. lia.
  - eexists. split; [reflexivity|]. cbn. lia.
Qed.

(** C5 at the [b.mi] handler: run with [current_cycle - flag_cycle <= 1] it
    charges the instruction's own cycle and, when taken, the taken-branch
    cycle, and nothing for the use of the flags. *)
Theorem bmi_omits_flag_use_penalty (host : nat -> machine -> result machine)
    (s : machine) (label : string) (i : nat) :
  cycle_count s - flag_cycle s <= 1 ->
  mentions_register label = false ->
  find_label label (asm s) = Some i ->
  exists s',
    execute host (IBcond MI label) s = Ok s'
    /\ cycle_count s' = cycle_count s + 1 + (if n_flag s then 1 else 0).
Proof.
  intros Hflag Hreg Hlab.
  unfold execute, exec_bcond. rewrite Hreg. cbn [raise_if mbind result_bind].
  cbn [checks_flag_cycle cond_holds n_flag set_last_dst set_execute_count
       set_cycle_count].
  destruct (n_flag s).
  - unfold goto. cbn [asm add_cycles set_last_dst set_execute_count set_cycle_count].
    rewrite Hlab. cbn [mbind result_bind].
    eexists. split; [reflexivity|]. cbn. lia.
  - eexists. split; [reflexivity|]. cbn. lia.
Qed.

Lemma bmi_omits_flag_use_penalty_witness :
  cycle_count just_compared - flag_cycle just_compared <= 1
  /\ mentions_register "done" = false
  /\ find_label "done" (asm just_compared) = Some 2%nat
  /\ exists s',
       execute no_host (IBcond MI "done") just_compared = Ok s'
       /\ cycle_count s' = cycle_count just_compared + 1
                            + (if n_flag just_compared then 1 else 0).
Proof.
  split; [simpl; lia|]. split; [reflexivity|]. split; [reflexivity|].
  apply (bmi_omits_flag_use_penalty no_host just_compared "done" 2);
    [simpl; lia | reflexivity | reflexivity].
Defined.

(** Run right after [cmp], a taken [b.mi] costs 2 cycles where the taken
    [b.lt], which tests the same flag, costs 3. *)
Lemma bmi_versus_blt_after_cmp :
  branch_cost MI = Ok 2 /\ branch_cost LT = Ok 3.
Proof. split; by vm_compute. Qed.

(** ** The bounds test of loads and stores *)

Lemma load_limit_is_width k a :
  k <> Ldursw \/ (exists rn, a = Base rn) -> load_limit k a = load_width k.
Proof.
  intros [Hk | [rn ->]]; destruct k; try reflexivity; try contradiction.
  all: destruct a; reflexivity.
Qed.

Lemma store_limit_is_width k a : k <> Sturw -> store_limit k a = store_width k.
Proof. intros Hk. destruct k; try reflexivity; contradiction. Qed.

Lemma exec_load_oob cur k rt a s addr sp :
  address a s = Ok addr ->
  reg s !! "sp" = Some sp ->
  ~ (sp <= addr /\ addr + load_limit k a <= py_len (mem s)) ->
  exec_load cur k rt a s = Raise oob.
Proof.
  intros Ha Hsp Hout. unfold exec_load.
  rewrite address_stall, Ha. cbn [mbind result_bind].
  rewrite check_bounds_stall, (check_bounds_fails _ _ _ sp) by assumption.
  reflexivity.
Qed.

Lemma exec_store_oob cur k rt a s addr sp :
  address a s = Ok addr ->
  reg s !! "sp" = Some sp ->
  ~ (sp <= addr /\ addr + store_limit k a <= py_len (mem s)) ->
  exec_store cur k rt a s = Raise oob.
Proof.
  intros Ha Hsp Hout. unfold exec_store.
  rewrite address_stall, Ha. cbn [mbind result_bind].
  rewrite check_bounds_stall, (check_bounds_fails _ _ _ sp) by assumption.
  reflexivity.
Qed.

(** C1 at the forms that test [len(mem) - 2] for a 4-byte access: with
    [addr = len(mem) - 2], so that [addr + 4 > len(mem)], [ldursw] with an
    immediate or register offset and every [sturw] form run without an
    out-of-bounds error (the stores even lengthen memory by 2 bytes), while
    [ldursw rt,[rn]], which tests [len(mem) - 4], raises it. *)
Theorem word_access_past_end_succeeds :
  access_two_before_end (ILoad Ldursw "x1" (BaseImm "x0" 0)) = Ok (4104, 4104)
  /\ access_two_before_end (ILoad Ldursw "x1" (BaseReg "x0" "xzr")) = Ok (4104, 4104)
  /\ access_two_before_end (IStore Sturw "x1" (Base "x0")) = Ok (4104, 4106)
  /\ access_two_before_end (IStore Sturw "x1" (BaseImm "x0" 0)) = Ok (4104, 4106)
  /\ access_two_before_end (IStore Sturw "x1" (BaseReg "x0" "xzr")) = Ok (4104, 4106)
  /\ access_two_before_end (ILoad Ldursw "x1" (Base "x0")) = Raise oob.
Proof. repeat split; by vm_compute. Qed.

(** ** Signedness of [.dword] values *)

(** Below the threshold the declaration appends the 8 little-endian bytes,
    unsigned for [v >= 0] and two's complement for [v < 0]. *)
Lemma encode_dword_accepted v :
  - 2 ^ 63 <= v <= 255 ^ 8 ->
  number_signed 8 v = (v <? 0)
  /\ encode_number 8 v = Ok (le_bytes 8 v)
  /\ length (le_bytes 8 v) = 8%nat.
Proof.
  intros Hv. unfold encode_number, number_signed, to_bytes.
  change (255 ^ Z.of_nat 8) with 17878103347812890625.
  change (8 * Z.of_nat 8) with 64.
  change (2 ^ (64 - 1)) with 9223372036854775808.
  change (255 ^ 8) with 17878103347812890625 in Hv.
  change (2 ^ 63) with 9223372036854775808 in Hv.
  change (2 ^ 64) with 18446744073709551616.
  destruct (Z.ltb_spec v 0) as [Hneg | Hpos].
  - rewrite (proj2 (Z.leb_gt 0 v)) by lia. cbn [andb negb].
    rewrite (proj2 (Z.leb_le _ v)) by lia.
    rewrite (proj2 (Z.ltb_lt v _)) by lia.
    repeat split.
  - rewrite (proj2 (Z.leb_le 0 v)) by lia.
    rewrite (proj2 (Z.leb_le v _)) by lia. cbn [andb negb].
    rewrite (proj2 (Z.ltb_lt v _)) by lia.
    repeat split.
Qed.

(** C6 at the values between the code's threshold and the 8-byte unsigned
    range: for [255^8 < v < 2^64] the parser picks the signed encoding, which
    overflows, so the declaration raises [OverflowError] and appends nothing. *)
Theorem dword_between_255_pow_8_and_2_pow_64_rejected (v : Z) :
  255 ^ 8 < v < 2 ^ 64 ->
  number_signed 8 v = true
  /\ encode_number 8 v = Raise OverflowError
  /\ forall name s index,
       parse_directive (Dword name [v]) s index = Raise OverflowError.
Proof.
  intros Hv.
  assert (Hs : number_signed 8 v = true).
  { unfold number_signed.
    change (255 ^ Z.of_nat 8) with (255 ^ 8).
    rewrite (proj2 (Z.leb_gt v (255 ^ 8))) by lia.
    by rewrite andb_false_r. }
  assert (He : encode_number 8 v = Raise OverflowError).
  { unfold encode_number, to_bytes. rewrite Hs.
    change (8 * Z.of_nat 8) with 64.
    change (2 ^ (64 - 1)) with 9223372036854775808.
    change (255 ^ 8) with 17878103347812890625 in Hv.
    rewrite (proj2 (Z.ltb_ge v 9223372036854775808)) by lia.
    by rewrite andb_false_r. }
  split; [exact Hs|]. split; [exact He|].
  intros name s index. unfold parse_directive, numbers_directive.
  cbn [extend_numbers]. rewrite He. reflexivity.
Qed.

Lemma dword_between_255_pow_8_and_2_pow_64_rejected_witness :
  255 ^ 8 < 18446744073709551615 < 2 ^ 64
  /\ number_signed 8 18446744073709551615 = true
  /\ encode_number 8 18446744073709551615 = Raise OverflowError
  /\ forall name s index,
       parse_directive (Dword name [18446744073709551615]) s index
       = Raise OverflowError.
Proof.
  split; [lia|].
  apply (dword_between_255_pow_8_and_2_pow_64_rejected 18446744073709551615). lia.
Defined.

(** ** Who writes the flags *)

#[local] Arguments stall : simpl never.
#[local] Arguments flag_stall : simpl never.

Lemma flags_stall cur srcs p s : same_flags s (stall cur srcs p s).
Proof. destruct p; unfold stall; try destruct (hazard _ _ _ _); by split. Qed.

Lemma same_flags_refl s : same_flags s s.
Proof. by split. Qed.

Lemma same_flags_trans s1 s2 s3 :
  same_flags s1 s2 -> same_flags s2 s3 -> same_flags s1 s3.
Proof. intros [H1 H2] [H3 H4]. split; congruence. Qed.

Ltac bind_inv H :=
  repeat match type of H with
    | mbind _ ?m = Ok _ =>
        let E := fresh "E" in
        destruct m eqn:E; cbn [mbind result_bind] in H; [|discriminate H]
    | (if ?c then _ else _) = Ok _ =>
        let E := fresh "E" in destruct c eqn:E; try discriminate H
    | (match ?m with _ => _ end) = Ok _ =>
        let E := fresh "E" in destruct m eqn:E; try discriminate H
    | Raise _ = Ok _ => discriminate H
    end.

Ltac proj_flags :=
  unfold same_flags;
  cbn [n_flag z_flag set_asm set_original_break set_brk set_regs set_reg set_pc
       set_label_hit_counts set_sym_table set_mem set_cycle_count add_cycles
       set_execute_count set_ld set_flag_cycle set_last_dst set_stdin
       set_stdout set_entropy].

Lemma flags_exec_load cur k rt a s s' :
  exec_load cur k rt a s = Ok s' -> same_flags s s'.
Proof.
  unfold exec_load. intros H. bind_inv H. injection H as <-.
  proj_flags. apply flags_stall.
Qed.

Lemma flags_exec_store cur k rt a s s' :
  exec_store cur k rt a s = Ok s' -> same_flags s s'.
Proof.
  unfold exec_store. intros H. bind_inv H. injection H as <-.
  proj_flags. apply flags_stall.
Qed.

Lemma flags_exec_div cur rd rn rm s s' :
  exec_div cur rd rn rm s = Ok s' -> same_flags s s'.
Proof.
  unfold exec_div. intros H. bind_inv H. injection H as <-.
  proj_flags. apply flags_stall.
Qed.

Lemma flags_goto label s s' : goto label s = Ok s' -> same_flags s s'.
Proof.
  unfold goto. intros H. destruct (find_label _ _); [|discriminate].
  injection H as <-. by split.
Qed.

Lemma flags_exec_cb cur nz rn label s s' :
  exec_cb cur nz rn label s = Ok s' -> same_flags s s'.
Proof.
  unfold exec_cb. intros H.
  destruct (raise_if _ _); cbn [mbind result_bind] in H; [|discriminate].
  set (s1 := if pyval_is (last_dst s) rn then _ else _) in H.
  assert (Hs1 : same_flags s s1).
  { subst s1. destruct (pyval_is _ _); [by split|].
    destruct (_ && _); by split. }
  destruct (getitem _ _); cbn [mbind result_bind] in H; [|discriminate].
  destruct (if nz then _ else _).
  - destruct (goto label s1) as [s2|] eqn:E; cbn [mbind result_bind] in H;
      [|discriminate].
    injection H as <-. apply flags_goto in E.
    apply (same_flags_trans _ s1); [done|].
    destruct E as [E1 E2]. by split.
  - by injection H as <-.
Qed.

Lemma flags_flag_stall cur s : same_flags s (flag_stall cur s).
Proof. unfold flag_stall. destruct (_ <=? _); by split. Qed.

Lemma flags_exec_bcond cur c label s s' :
  exec_bcond cur c label s = Ok s' -> same_flags s s'.
Proof.
  unfold exec_bcond. intros H.
  destruct (raise_if _ _); cbn [mbind result_bind] in H; [|discriminate].
  set (s1 := if checks_flag_cycle c then _ else _) in H.
  assert (Hs1 : same_flags s s1).
  { subst s1. destruct (checks_flag_cycle c); [apply flags_flag_stall | by split]. }
  destruct (cond_holds c s1).
  - destruct (goto label s1) as [s2|] eqn:E; cbn [mbind result_bind] in H;
      [|discriminate].
    injection H as <-. apply flags_goto in E.
    apply (same_flags_trans _ s1); [done|].
    destruct E as [E1 E2]. by split.
  - by injection H as <-.
Qed.

Lemma flags_exec_br_lr s s' : exec_br_lr s = Ok s' -> same_flags s s'.
Proof.
  unfold exec_br_lr. intros H. bind_inv H. injection H as <-. by split.
Qed.

Lemma flags_sys_brk s s' : sys_brk s = Ok s' -> same_flags s s'.
Proof.
  unfold sys_brk. intros H.
  destruct (getitem _ _); cbn [mbind result_bind] in H; [|discriminate].
  destruct (_ <? _); [by injection H as <-|].
  destruct (_ =? _); [by injection H as <-|].
  destruct (py_assert _ _); cbn [mbind result_bind] in H; [|discriminate].
  destruct (raise_if _ _); cbn [mbind result_bind] in H; [|discriminate].
  destruct (_ >? _); cbn [reg set_mem] in H;
    (destruct (getitem _ _); cbn [mbind result_bind] in H; [|discriminate]);
    by injection H as <-.
Qed.

Lemma flags_exec_svc s s' : exec_svc s = Ok s' -> same_flags s s'.
Proof.
  unfold exec_svc. intros H.
  destruct (getitem _ _); cbn [mbind result_bind] in H; [|discriminate].
  destruct (_ =? 93); [by injection H as <-|].
  destruct (_ =? 64).
  { unfold sys_write in H. bind_inv H. by injection H as <-. }
  destruct (_ =? 63).
  { unfold sys_read in H. bind_inv H. by injection H as <-. }
  destruct (_ =? 214); [by apply flags_sys_brk|].
  destruct (_ =? 278); [|discriminate].
  unfold sys_getrandom in H. bind_inv H. by injection H as <-.
Qed.

Lemma ltb_as_sign x y : (x <? y) = (x - y <? 0).
Proof. destruct (Z.ltb_spec x y), (Z.ltb_spec (x - y) 0); lia || reflexivity. Qed.

Lemma eqb_as_zero x y : (x =? y) = (x - y =? 0).
Proof. destruct (Z.eqb_spec x y), (Z.eqb_spec (x - y) 0); lia || reflexivity. Qed.

Section Flags.

Variable host : nat -> machine -> result machine.

(** The callables bound to linked labels are outside the simulator; the
    flag discipline is stated for hosts that leave N and Z alone. *)
Hypothesis host_keeps_flags :
  forall f m m', host f m = Ok m' -> same_flags m m'.

Lemma flags_exec_bl cur label s s' :
  exec_bl host cur label s = Ok s' -> same_flags s s'.
Proof.
  unfold exec_bl. intros H.
  destruct (raise_if _ _); cbn [mbind result_bind] in H; [|discriminate].
  set (s1 := set_reg "lr" _ _) in H.
  set (s2 := match label_hit_counts s1 !! _ with Some _ => _ | None => _ end) in H.
  assert (H1 : same_flags s s1).
  { subst s1. proj_flags. apply flags_flag_stall. }
  assert (H2 : same_flags s1 s2).
  { subst s2. destruct (label_hit_counts s1 !! _); by split. }
  destruct (linked_labels s2 !! _) as [f|] eqn:El.
  - destruct (host f s2) as [s3|] eqn:E; cbn [mbind result_bind] in H;
      [|discriminate].
    injection H as <-. apply host_keeps_flags in E.
    apply (same_flags_trans _ s1); [done|].
    apply (same_flags_trans _ s2); [done|].
    destruct E. by split.
  - destruct (goto label s2) as [s3|] eqn:E; cbn [mbind result_bind] in H;
      [|discriminate].
    injection H as <-. apply flags_goto in E.
    apply (same_flags_trans _ s1); [done|].
    apply (same_flags_trans _ s2); [done|].
    destruct E. by split.
Qed.

Ltac stalled :=
  proj_flags;
  match goal with
  | |- n_flag (stall ?c ?l ?p ?m) = _ /\ _ =>
      destruct (flags_stall c l p m) as [-> ->]; by split
  end.

Ltac framed L H :=
  apply L in H; destruct H as [? ?]; split; assumption.

(** C7: an instruction that executes without error writes N and Z only if it
    is [cmp] or an s form of add/sub/and/orr/eor, and then leaves
    [N = (result < 0)] and [Z = (result == 0)], the result of [cmp] being
    [reg[rn]] minus the second operand; every other instruction leaves both
    flags as they were. *)
Theorem flags_written_only_by_cmp_and_s_forms (i : instr) (s s' : machine) :
  execute host i s = Ok s' ->
  match flag_result i s with
  | Some r => exists v, r = Ok v /\ n_flag s' = (v <? 0) /\ z_flag s' = (v =? 0)
  | None => same_flags s s'
  end.
Proof.
  destruct i; cbn [flag_result]; unfold execute; intros H.
  - framed flags_exec_load H.
  - bind_inv H. injection H as <-. by split.
  - framed flags_exec_store H.
  - destruct o; bind_inv H; injection H as <-; [by split | stalled].
  - bind_inv H. injection H as <-. stalled.
  - bind_inv H. injection H as <-. stalled.
  - (* add, sub, and, orr, eor and their s forms *)
    rewrite !reg_stall in H. cbn [reg set_last_dst set_execute_count set_cycle_count] in H.
    destruct (getitem (reg s) rn) as [x|] eqn:Ex; cbn [mbind result_bind] in H;
      [|destruct s0; discriminate].
    assert (Ho : forall m, reg m = reg s -> operand_value o m = operand_value o s).
    { intros m Hm. destruct o; simpl; [done | by rewrite Hm]. }
    rewrite Ho in H by (rewrite reg_stall; reflexivity).
    destruct (operand_value o s) as [y|] eqn:Ey; cbn [mbind result_bind] in H;
      [|destruct s0; discriminate].
    injection H as <-. destruct s0; cbn [flag_result].
    + cbn [mbind result_bind].
      exists (arith_value op x y). by repeat split.
    + stalled.
  - bind_inv H. injection H as <-. stalled.
  - framed flags_exec_div H.
  - framed flags_exec_div H.
  - (* cmp *)
    rewrite !reg_stall in H. cbn [reg set_last_dst set_execute_count set_cycle_count] in H.
    assert (Ho : forall m, reg m = reg s -> operand_value o m = operand_value o s).
    { intros m Hm. destruct o; simpl; [done | by rewrite Hm]. }
    rewrite Ho in H by (rewrite reg_stall; reflexivity).
    destruct (match o with Reg rm => _ | Imm _ => _ end);
      cbn [mbind result_bind] in H; [|discriminate].
    destruct (getitem (reg s) rn) as [x|] eqn:Ex; cbn [mbind result_bind] in H;
      [|discriminate].
    destruct (operand_value o s) as [y|] eqn:Ey; cbn [mbind result_bind] in H;
      [|discriminate].
    injection H as <-. cbn [mbind result_bind].
    exists (x - y). split; [reflexivity|].
    proj_flags. split; [apply ltb_as_sign | apply eqb_as_zero].
  - framed flags_exec_cb H.
  - framed flags_exec_cb H.
  - destruct (raise_if _ _); cbn [mbind result_bind] in H; [|discriminate].
    destruct (goto _ _) as [s1|] eqn:E; cbn [mbind result_bind] in H; [|discriminate].
    injection H as <-. framed flags_goto E.
  - framed flags_exec_bcond H.
  - framed flags_exec_bl H.
  - framed flags_exec_br_lr H.
  - framed flags_exec_svc H.
  - discriminate.
Qed.

End Flags.

Lemma flags_written_only_by_cmp_and_s_forms_witness :
  (forall f m m', no_host f m = Ok m' -> same_flags m m')
  /\ execute no_host (IArith Sub true "x1" "x0" (Imm 1)) initial = Ok after_subs
  /\ exists v,
       (x ← getitem (reg initial) "x0"; y ← operand_value (Imm 1) initial;
        Ok (arith_value Sub x y)) = Ok v
       /\ n_flag after_subs = (v <? 0) /\ z_flag after_subs = (v =? 0).
Proof.
  assert (Hhost : forall f m m', no_host f m = Ok m' -> same_flags m m').
  { intros f m m' H. injection H as <-. by split. }
  split; [exact Hhost|]. split; [reflexivity|].
  apply (flags_written_only_by_cmp_and_s_forms no_host Hhost
           (IArith Sub true "x1" "x0" (Imm 1)) initial after_subs).
  reflexivity.
Defined.

(** ** The driver loop *)


Lemma stack_checks_spec s sp :
  reg s !! "sp" = Some sp ->
  if (0 <=? sp) && (sp <=? STACK_SIZE) && ((sp + 1) mod 16 =? 0)
  then stack_checks s = Ok tt
  else exists msg, stack_checks s = Raise (ValueError msg).
Proof.
  intros Hsp. unfold stack_checks, getitem. rewrite Hsp.
  cbn [mbind result_bind]. unfold raise_if.
  destruct (Z.leb_spec 0 sp), (Z.ltb_spec sp 0); try lia; cbn [andb];
    [|eexists; reflexivity].
  cbn [mbind result_bind].
  destruct (Z.leb_spec sp STACK_SIZE), (Z.gtb_spec sp STACK_SIZE); try lia;
    cbn [andb]; [|eexists; reflexivity].
  cbn [mbind result_bind].
  destruct (_ =? 0); cbn [negb]; [reflexivity | eexists; reflexivity].
Qed.

(** The stack checks guard every turn of the loop, whatever the line. *)
Lemma stack_checks_guard_every_line host s recursed e :
  stack_checks s = Raise e ->
  exists e', run_iter host (s, recursed) = Raise e'.
Proof.
  intros Hchk. unfold run_iter.
  destruct (py_index (asm s) (pc s)) as [ln|e0]; cbn [mbind result_bind];
    [|by eexists].
  destruct (match ln with Ins (IBl _) => _ | _ => _ end);
    cbn [mbind result_bind]; [|by eexists].
  rewrite Hchk. cbn [mbind result_bind]. by eexists.
Qed.

(** C9, as the code has it: the three stack checks come before the label
    test, so they are applied to every fetched line.  On a bare label line
    whose key is in the hit table, the turn increments that label's count and
    advances the program counter exactly when [0 <= sp <= STACK_SIZE] and
    [(sp + 1) mod 16 = 0]; otherwise it raises the error of the failed check. *)
Theorem label_line_passes_stack_checks_first
    (host : nat -> machine -> result machine) (s : machine)
    (recursed : gset string) (name : string) (c sp : Z) :
  py_index (asm s) (pc s) = Ok (Lbl name) ->
  label_hit_counts s !! String.append name ":" = Some c ->
  reg s !! "sp" = Some sp ->
  if (0 <=? sp) && (sp <=? STACK_SIZE) && ((sp + 1) mod 16 =? 0)
  then run_iter host (s, recursed)
       = Ok (set_label_hit_counts
               (<[String.append name ":" := c + 1]> (label_hit_counts s))
               (set_pc (pc s + 1) s), recursed)
  else exists msg, run_iter host (s, recursed) = Raise (ValueError msg).
Proof.
  intros Hfetch Hcount Hsp.
  pose proof (stack_checks_spec s sp Hsp) as Hchk.
  unfold run_iter. rewrite Hfetch. cbn [mbind result_bind].
  destruct ((0 <=? sp) && (sp <=? STACK_SIZE) && ((sp + 1) mod 16 =? 0)).
  - rewrite Hchk. cbn [mbind result_bind label_hit_counts set_pc].
    unfold getitem. rewrite Hcount. reflexivity.
  - destruct Hchk as [msg ->]. by exists msg.
Qed.

Lemma label_line_passes_stack_checks_first_witness :
  py_index (asm at_label) (pc at_label) = Ok (Lbl "loop")
  /\ label_hit_counts at_label !! String.append "loop" ":" = Some 0
  /\ reg at_label !! "sp" = Some 4095
  /\ run_iter no_host (at_label, ∅)
     = Ok (set_label_hit_counts
             (<[String.append "loop" ":" := 0 + 1]> (label_hit_counts at_label))
             (set_pc (pc at_label + 1) at_label), ∅).
Proof.
  split; [reflexivity|]. split; [reflexivity|]. split; [reflexivity|].
  apply (label_line_passes_stack_checks_first no_host at_label ∅ "loop" 0 4095);
    reflexivity.
Defined.

(** The claim of C9 as stated fails after [sub sp,sp,4096]: the next line is
    the bare label [loop:], its key is in the hit table, [sp = -1], and the
    turn raises "stack overflow" instead of counting the label. *)
Lemma label_line_stack_check_counterexample :
  py_index (asm at_label_with_negative_sp) (pc at_label_with_negative_sp)
    = Ok (Lbl "loop")
  /\ reg at_label_with_negative_sp !! "sp" = Some (-1)
  /\ label_hit_counts at_label_with_negative_sp !! String.append "loop" ":" = Some 0
  /\ run_iter no_host (at_label_with_negative_sp, ∅)
     = Raise (ValueError "stack overflow").
Proof. repeat split; by vm_compute. Qed.

(** C8: a turn of the loop that executes an instruction and returns to the
    loop leaves [xzr = 0], whatever the instruction wrote. *)
Theorem xzr_zero_after_every_instruction
    (host : nat -> machine -> result machine) (s s' : machine)
    (recursed recursed' : gset string) (i : instr) :
  py_index (asm s) (pc s) = Ok (Ins i) ->
  run_iter host (s, recursed) = Ok (s', recursed') ->
  reg s' !! "xzr" = Some 0.
Proof.
  intros Hfetch H. unfold run_iter in H. rewrite Hfetch in H.
  cbn [mbind result_bind] in H.
  destruct (match i with IBl _ => _ | _ => _ end) as [r|];
    cbn [mbind result_bind] in H; [|discriminate].
  destruct (stack_checks s); cbn [mbind result_bind] in H; [|discriminate].
  destruct (execute host i s) as [s1|]; cbn [mbind result_bind] in H;
    [|discriminate].
  injection H as <- _. cbn. apply lookup_insert_eq.
Qed.

Lemma xzr_zero_after_every_instruction_witness :
  py_index (asm before_mov_xzr) (pc before_mov_xzr) = Ok (Ins (IMov "xzr" (Imm 5)))
  /\ run_iter no_host (before_mov_xzr, ∅) = Ok (after_mov_xzr, ∅)
  /\ reg after_mov_xzr !! "xzr" = Some 0.
Proof.
  split; [reflexivity|]. split; [vm_compute; reflexivity|].
  apply (xzr_zero_after_every_instruction no_host before_mov_xzr after_mov_xzr
           ∅ ∅ (IMov "xzr" (Imm 5))); [reflexivity | vm_compute; reflexivity].
Defined.

(** The instruction itself did write 5 to [xzr]. *)
Lemma mov_xzr_writes_register :
  (s ← execute no_host (IMov "xzr" (Imm 5)) before_mov_xzr; Ok (reg s !! "xzr"))
  = Ok (Some 5).
Proof. by vm_compute. Qed.

(** ** [reset] *)

(** C10: [reset] zeroes every register, empties memory, the instruction
    stream, the symbol table, [forbidden_instructions] and [linked_labels],
    clears both flags, the three rule flags, [pc] and the two counters,
    returns the four hazard scalars to their start-up value [-1], and leaves
    [check_dead_code], [recursive_labels], [brk] and [original_break] as they
    were. *)
Theorem reset_clears_all_but_four (s : machine) :
  (forall r v, reg (reset s) !! r = Some v -> v = 0)
  /\ dom (reg (reset s)) = dom (reg s)
  /\ mem (reset s) = []
  /\ asm (reset s) = []
  /\ sym_table (reset s) = ∅
  /\ n_flag (reset s) = false /\ z_flag (reset s) = false
  /\ pc (reset s) = 0
  /\ cycle_count (reset s) = 0 /\ execute_count (reset s) = 0
  /\ ld_cycle (reset s) = -1 /\ ld_cycle initial = -1
  /\ ld_dst (reset s) = PyInt (-1) /\ ld_dst initial = PyInt (-1)
  /\ flag_cycle (reset s) = -1 /\ flag_cycle initial = -1
  /\ last_dst (reset s) = PyInt (-1) /\ last_dst initial = PyInt (-1)
  /\ forbidden_instructions (reset s) = ∅
  /\ linked_labels (reset s) = ∅
  /\ require_recursion (reset s) = false
  /\ forbid_recursion (reset s) = false
  /\ forbid_loops (reset s) = false
  /\ check_dead_code (reset s) = check_dead_code s
  /\ recursive_labels (reset s) = recursive_labels s
  /\ brk (reset s) = brk s
  /\ original_break (reset s) = original_break s.
Proof.
  split.
  { intros r v. cbn [reset reg]. rewrite lookup_fmap.
    destruct (reg s !! r); simpl; congruence. }
  split; [cbn [reset reg]; apply dom_fmap_L|].
  repeat split.
Qed.

(** ** The footprint of [execute] *)

Lemma add_cycles_zero s : add_cycles 0 s = s.
Proof. destruct s. unfold add_cycles, set_cycle_count. simpl. f_equal. lia. Qed.

(** A stall only adds cycles, and never a negative number of them once
    [ld_cycle] is not in the future. *)
Lemma stall_effect cur srcs p s :
  exists d, stall cur srcs p s = add_cycles d s /\ (ld_cycle s <= cur -> 0 <= d).
Proof.
  destruct p as [|w|w]; unfold stall.
  - exists 0. by rewrite add_cycles_zero.
  - destruct (hazard _ _ _ _); [exists 1 | exists 0; rewrite add_cycles_zero];
      split; try done; lia.
  - destruct (hazard _ _ _ _);
      [exists (cur - ld_cycle s) | exists 0; rewrite add_cycles_zero];
      split; try done; lia.
Qed.

Lemma flag_stall_effect cur s :
  exists d, flag_stall cur s = add_cycles d s /\ 0 <= d.
Proof.
  unfold flag_stall.
  destruct (_ <=? _); [exists 1 | exists 0; rewrite add_cycles_zero];
    split; try done; lia.
Qed.

Ltac expose_stalls :=
  repeat match goal with
    | |- context [stall ?c ?l ?p ?m] =>
        let d := fresh "d" in
        let Hd := fresh "Hd" in
        destruct (stall_effect c l p m) as (d & -> & Hd)
    | |- context [flag_stall ?c ?m] =>
        let d := fresh "d" in
        let Hd := fresh "Hd" in
        destruct (flag_stall_effect c m) as (d & -> & Hd)
    end.

Ltac proj_all :=
  cbn [asm original_break brk reg pc n_flag z_flag label_hit_counts
       linked_labels sym_table mem cycle_count execute_count ld_cycle ld_dst
       flag_cycle last_dst stdin stdout entropy
       set_asm set_original_break set_brk set_regs set_reg set_pc set_n_flag
       set_z_flag set_nz set_label_hit_counts set_sym_table set_mem
       set_cycle_count add_cycles set_execute_count set_ld set_flag_cycle
       set_last_dst set_stdin set_stdout set_entropy] in *.

Ltac effect_solve :=
  expose_stalls; unfold effect_within; proj_all;
  repeat match goal with
    | |- _ /\ _ => split
    | |- forall r, r ∉ _ -> _ => let r := fresh "r" in let Hr := fresh "Hr" in intros r Hr
    | |- false = false -> _ => intros _
    | |- (_ <= _) -> _ => intros ?
    | |- true = false -> _ => discriminate
    end;
  first [ reflexivity
        | lia
        | (left; reflexivity)
        | (right; reflexivity)
        | (rewrite lookup_insert_ne by set_solver; reflexivity)
        | idtac ].

Lemma effect_within_trans cur regs wm s1 s2 s3 :
  effect_within cur regs wm s1 s2 ->
  execute_count s3 = execute_count s2 ->
  cycle_count s2 <= cycle_count s3 ->
  ld_cycle s3 = ld_cycle s2 ->
  reg s3 = reg s2 -> mem s3 = mem s2 -> asm s3 = asm s2 ->
  sym_table s3 = sym_table s2 -> linked_labels s3 = linked_labels s2 ->
  effect_within cur regs wm s1 s3.
Proof.
  unfold effect_within.
  intros (H1 & H2 & H3 & H4 & H5 & H6 & H7 & H8) E1 E2 E3 E4 E5 E6 E7 E8.
  rewrite E1, E3, E4, E5, E6, E7, E8. repeat split; try done.
  intros Hld. specialize (H2 Hld). lia.
Qed.

Lemma effect_exec_load cur k rt a s s' :
  exec_load cur k rt a s = Ok s' -> effect_within cur [rt] false s s'.
Proof.
  unfold exec_load. intros H. bind_inv H. injection H as <-.
  effect_solve.
Qed.

Lemma effect_exec_store cur k rt a s s' :
  exec_store cur k rt a s = Ok s' -> effect_within cur [] true s s'.
Proof.
  unfold exec_store. intros H. bind_inv H. injection H as <-.
  effect_solve.
Qed.

Lemma effect_exec_div cur rd rn rm s s' :
  exec_div cur rd rn rm s = Ok s' -> effect_within cur [rd] false s s'.
Proof.
  unfold exec_div. intros H. bind_inv H. injection H as <-.
  effect_solve.
Qed.

Lemma effect_goto cur label s s' :
  goto label s = Ok s' -> effect_within cur [] false s s'.
Proof.
  unfold goto. intros H. destruct (find_label _ _); [|discriminate].
  injection H as <-. effect_solve.
Qed.

Lemma effect_exec_cb cur nz rn label s s' :
  exec_cb cur nz rn label s = Ok s' -> effect_within cur [] false s s'.
Proof.
  unfold exec_cb. intros H.
  destruct (raise_if _ _); cbn [mbind result_bind] in H; [|discriminate].
  set (s1 := if pyval_is (last_dst s) rn then _ else _) in H.
  assert (Hs1 : exists d, s1 = add_cycles d s /\ 0 <= d).
  { subst s1. destruct (pyval_is (last_dst s) rn); [exists 1; split; [done|lia]|].
    destruct (pyval_is (ld_dst s) rn && _) eqn:E.
    - exists (3 - (cur - ld_cycle s)). split; [done|].
      apply andb_true_iff in E as [_ E]. apply Z.leb_le in E. lia.
    - exists 0. by rewrite add_cycles_zero. }
  destruct Hs1 as (d & -> & Hd).
  destruct (getitem _ _); cbn [mbind result_bind] in H; [|discriminate].
  destruct (if nz then _ else _).
  - destruct (goto label _) as [s2|] eqn:E; cbn [mbind result_bind] in H;
      [|discriminate].
    injection H as <-. unfold goto in E. proj_all.
    destruct (find_label _ _); [|discriminate]. injection E as <-.
    effect_solve.
  - injection H as <-. effect_solve.
Qed.

Lemma effect_exec_bcond cur c label s s' :
  exec_bcond cur c label s = Ok s' -> effect_within cur [] false s s'.
Proof.
  unfold exec_bcond. intros H.
  destruct (raise_if _ _); cbn [mbind result_bind] in H; [|discriminate].
  set (s1 := if checks_flag_cycle c then _ else _) in H.
  assert (Hs1 : exists d, s1 = add_cycles d s /\ 0 <= d).
  { subst s1. destruct (checks_flag_cycle c); [apply flag_stall_effect|].
    exists 0. by rewrite add_cycles_zero. }
  destruct Hs1 as (d & -> & Hd).
  destruct (cond_holds c _).
  - destruct (goto label _) as [s2|] eqn:E; cbn [mbind result_bind] in H;
      [|discriminate].
    injection H as <-. unfold goto in E. proj_all.
    destruct (find_label _ _); [|discriminate]. injection E as <-.
    effect_solve.
  - injection H as <-. effect_solve.
Qed.

Lemma effect_exec_br_lr cur s s' :
  exec_br_lr s = Ok s' -> effect_within cur [] false s s'.
Proof.
  unfold exec_br_lr. intros H. bind_inv H. injection H as <-. effect_solve.
Qed.

Lemma effect_sys_brk cur s s' :
  sys_brk s = Ok s' -> effect_within cur ["x0"] true s s'.
Proof.
  unfold sys_brk. intros H.
  destruct (getitem _ _); cbn [mbind result_bind] in H; [|discriminate].
  destruct (_ <? _); [injection H as <-; effect_solve|].
  destruct (_ =? _); [injection H as <-; effect_solve|].
  destruct (py_assert _ _); cbn [mbind result_bind] in H; [|discriminate].
  destruct (raise_if _ _); cbn [mbind result_bind] in H; [|discriminate].
  destruct (_ >? _); cbn [reg set_mem] in H;
    (destruct (getitem _ _); cbn [mbind result_bind] in H; [|discriminate]);
    injection H as <-; effect_solve.
Qed.

Lemma effect_exec_svc cur s s' :
  exec_svc s = Ok s' -> effect_within cur ["x0"] true s s'.
Proof.
  unfold exec_svc. intros H.
  destruct (getitem _ _); cbn [mbind result_bind] in H; [|discriminate].
  destruct (_ =? 93); [injection H as <-; effect_solve|].
  destruct (_ =? 64).
  { unfold sys_write in H. bind_inv H. injection H as <-. effect_solve. }
  destruct (_ =? 63).
  { unfold sys_read in H. bind_inv H. injection H as <-. effect_solve. }
  destruct (_ =? 214); [by apply effect_sys_brk|].
  destruct (_ =? 278); [|discriminate].
  unfold sys_getrandom in H. bind_inv H. injection H as <-. effect_solve.
Qed.

Lemma effect_exec_bl host cur label s s' :
  linked_labels s = ∅ ->
  exec_bl host cur label s = Ok s' -> effect_within cur ["lr"] false s s'.
Proof.
  unfold exec_bl. intros Hlinked H.
  destruct (raise_if _ _); cbn [mbind result_bind] in H; [|discriminate].
  destruct (flag_stall_effect cur s) as (d & Hd & Hd0). rewrite Hd in H.
  proj_all.
  set (s2 := match label_hit_counts s !! _ with Some _ => _ | None => _ end) in H.
  assert (H2 : effect_within cur ["lr"] false s s2).
  { subst s2. destruct (label_hit_counts s !! _); effect_solve. }
  assert (Hl2 : linked_labels s2 = ∅).
  { destruct H2 as (_ & _ & _ & _ & _ & _ & _ & ->). exact Hlinked. }
  rewrite Hl2, lookup_empty in H.
  destruct (goto label s2) as [s3|] eqn:E; cbn [mbind result_bind] in H;
    [|discriminate].
  injection H as <-. unfold goto in E.
  destruct (find_label _ _); [|discriminate]. injection E as <-.
  apply (effect_within_trans _ _ _ _ s2); try done. proj_all. lia.
Qed.

Lemma execute_effect host i s s' :
  linked_labels s = ∅ ->
  execute host i s = Ok s' ->
  effect_within (cycle_count s) (written_regs i) (writes_memory i)
    (set_last_dst PyNone
       (set_execute_count (execute_count s + 1)
          (set_cycle_count (cycle_count s + 1) s))) s'.
Proof.
  intros Hlinked H. unfold execute in H.
  destruct i; cbn [written_regs writes_memory].
  - eapply effect_exec_load; exact H.
  - bind_inv H. injection H as <-. effect_solve.
  - eapply effect_exec_store; exact H.
  - destruct o; bind_inv H; injection H as <-; effect_solve.
  - bind_inv H. injection H as <-. effect_solve.
  - bind_inv H. injection H as <-. effect_solve.
  - destruct s0; bind_inv H; injection H as <-; effect_solve.
  - bind_inv H. injection H as <-. effect_solve.
  - eapply effect_exec_div; exact H.
  - eapply effect_exec_div; exact H.
  - bind_inv H; injection H as <-; effect_solve.
  - eapply effect_exec_cb; exact H.
  - eapply effect_exec_cb; exact H.
  - destruct (raise_if _ _); cbn [mbind result_bind] in H; [|discriminate].
    destruct (goto _ _) as [s1|] eqn:E; cbn [mbind result_bind] in H; [|discriminate].
    injection H as <-. unfold goto in E.
    destruct (find_label _ _); [|discriminate]. injection E as <-. effect_solve.
  - eapply effect_exec_bcond; exact H.
  - eapply effect_exec_bl; [exact Hlinked | exact H].
  - eapply effect_exec_br_lr; exact H.
  - eapply effect_exec_svc; exact H.
  - discriminate.
Qed.

(** X1: in a program without host callables, every instruction that executes
    counts once in [execute_count] and costs at least one cycle; the load
    timestamp stays in the past, so the same holds for the next instruction. *)
Theorem execute_counts_each_instruction_once
    (host : nat -> machine -> result machine) (i : instr) (s s' : machine) :
  linked_labels s = ∅ ->
  ld_cycle s <= cycle_count s ->
  execute host i s = Ok s' ->
  execute_count s' = execute_count s + 1
  /\ cycle_count s + 1 <= cycle_count s'
  /\ ld_cycle s' <= cycle_count s'
  /\ linked_labels s' = ∅.
Proof.
  intros Hlinked Hld H.
  destruct (execute_effect host i s s' Hlinked H)
    as (H1 & H2 & H3 & _ & _ & _ & _ & H8).
  proj_all. rewrite H8. specialize (H2 Hld). repeat split; try done; lia.
Qed.

(** X2: an instruction that executes changes no register outside the ones
    its form assigns to: the destination of a load, move or arithmetic form,
    [lr] for [bl], [x0] for [svc], and none at all for stores, [cmp] and the
    branches. *)
Theorem execute_preserves_other_registers
    (host : nat -> machine -> result machine) (i : instr) (s s' : machine)
    (r : string) :
  linked_labels s = ∅ ->
  execute host i s = Ok s' ->
  r ∉ written_regs i ->
  reg s' !! r = reg s !! r.
Proof.
  intros Hlinked H Hr.
  destruct (execute_effect host i s s' Hlinked H) as (_ & _ & _ & H4 & _).
  by apply H4.
Qed.

(** X3: memory is assigned only by the store forms and by [svc]; every other
    instruction that executes leaves [mem], and all of them leave the
    instruction stream and the symbol table, as they were. *)
Theorem execute_preserves_memory_and_program
    (host : nat -> machine -> result machine) (i : instr) (s s' : machine) :
  linked_labels s = ∅ ->
  execute host i s = Ok s' ->
  (writes_memory i = false -> mem s' = mem s)
  /\ asm s' = asm s
  /\ sym_table s' = sym_table s.
Proof.
  intros Hlinked H.
  destruct (execute_effect host i s s' Hlinked H)
    as (_ & _ & _ & _ & H5 & H6 & H7 & _).
  done.
Qed.

Lemma execute_counts_each_instruction_once_witness :
  linked_labels initial = ∅
  /\ ld_cycle initial <= cycle_count initial
  /\ execute no_host (IArith Sub true "x1" "x0" (Imm 1)) initial = Ok after_subs
  /\ execute_count after_subs = execute_count initial + 1
  /\ cycle_count initial + 1 <= cycle_count after_subs
  /\ ld_cycle after_subs <= cycle_count after_subs
  /\ linked_labels after_subs = ∅.
Proof.
  split; [reflexivity|]. split; [simpl; lia|]. split; [reflexivity|].
  apply (execute_counts_each_instruction_once no_host
           (IArith Sub true "x1" "x0" (Imm 1)) initial after_subs);
    [reflexivity | simpl; lia | reflexivity].
Defined.

Lemma execute_preserves_other_registers_witness :
  linked_labels initial = ∅
  /\ execute no_host (IArith Sub true "x1" "x0" (Imm 1)) initial = Ok after_subs
  /\ ("x5" ∉ written_regs (IArith Sub true "x1" "x0" (Imm 1)))
  /\ reg after_subs !! "x5" = reg initial !! "x5".
Proof.
  assert (Hx5 : "x5" ∉ written_regs (IArith Sub true "x1" "x0" (Imm 1))).
  { simpl. intros H. apply list_elem_of_singleton in H. discriminate. }
  split; [reflexivity|]. split; [reflexivity|]. split; [exact Hx5|].
  apply (execute_preserves_other_registers no_host
           (IArith Sub true "x1" "x0" (Imm 1)) initial after_subs "x5");
    [reflexivity | reflexivity | exact Hx5].
Defined.

Lemma execute_preserves_memory_and_program_witness :
  linked_labels initial = ∅
  /\ execute no_host (IArith Sub true "x1" "x0" (Imm 1)) initial = Ok after_subs
  /\ (writes_memory (IArith Sub true "x1" "x0" (Imm 1)) = false ->
      mem after_subs = mem initial)
  /\ asm after_subs = asm initial
  /\ sym_table after_subs = sym_table initial.
Proof.
  split; [reflexivity|]. split; [reflexivity|].
  apply (execute_preserves_memory_and_program no_host
           (IArith Sub true "x1" "x0" (Imm 1)) initial after_subs);
    reflexivity.
Defined.

(** ** Stores and loads *)

Lemma le_bytes_S k n : le_bytes (S k) n = n mod 256 :: le_bytes k (n / 256).
Proof. reflexivity. Qed.

Lemma take_le_bytes k n v : (k <= n)%nat -> take k (le_bytes n v) = le_bytes k v.
Proof.
  revert n v. induction k as [|k IH]; intros n v Hk; [by rewrite take_0|].
  destruct n as [|n]; [lia|].
  rewrite !le_bytes_S. cbn [take]. f_equal. apply IH. lia.
Qed.

Lemma le_value_bound bs :
  Forall (fun b => 0 <= b < 256) bs ->
  0 <= le_value bs < 256 ^ py_len bs.
Proof.
  induction 1 as [|b bs Hb _ IH]; [unfold py_len; simpl; lia|].
  cbn [le_value]. unfold py_len in *. cbn [length].
  rewrite Nat2Z.inj_succ, Z.pow_succ_r by lia. cbv beta in Hb. lia.
Qed.

Lemma py_bytes_inv l bs :
  py_bytes l = Ok bs -> bs = l /\ Forall (fun b => 0 <= b < 256) l.
Proof.
  unfold py_bytes. destruct (forallb _ l) eqn:E; [|discriminate].
  intros H. injection H as <-. split; [done|].
  rewrite forallb_forall in E. apply Forall_forall. intros x Hx.
  rewrite list_elem_of_In in Hx. specialize (E x Hx). lia.
Qed.

(** An in-range slice has the length asked for. *)
Lemma py_slice_length {A} (l : list A) lo w :
  0 <= lo -> 0 <= w -> lo + w <= py_len l ->
  py_len (py_slice l lo (lo + w)) = w.
Proof.
  intros Hlo Hw Hhi. unfold py_slice, slice_bound.
  destruct (Z.ltb_spec lo 0); [lia|].
  destruct (Z.ltb_spec (lo + w) 0); [lia|].
  rewrite !Z.min_l by lia.
  unfold py_len in *. rewrite length_take, length_drop. lia.
Qed.

(** An in-range slice assignment of as many elements as the range holds. *)
Lemma py_slice_assign_in_range {A} (l xs : list A) lo :
  0 <= lo -> lo + py_len xs <= py_len l ->
  py_slice_assign l lo (lo + py_len xs) xs
  = (take (Z.to_nat lo) l ++ xs ++ drop (Z.to_nat lo + length xs) l)%list.
Proof.
  intros Hlo Hhi. unfold py_slice_assign, slice_bound.
  pose proof (py_len_nonneg xs).
  destruct (Z.ltb_spec lo 0); [lia|].
  destruct (Z.ltb_spec (lo + py_len xs) 0); [lia|].
  rewrite !Z.min_l by lia. rewrite Z.max_r by lia.
  unfold py_len. rewrite Z2Nat.inj_add, Nat2Z.id by lia. reflexivity.
Qed.

Lemma py_slice_assign_length {A} (l xs : list A) lo :
  0 <= lo -> lo + py_len xs <= py_len l ->
  py_len (py_slice_assign l lo (lo + py_len xs) xs) = py_len l.
Proof.
  intros Hlo Hhi. rewrite py_slice_assign_in_range by done.
  unfold py_len in *. rewrite !length_app, length_take, length_drop. lia.
Qed.

Lemma py_slice_assign_read {A} (l xs : list A) lo :
  0 <= lo -> lo + py_len xs <= py_len l ->
  py_slice (py_slice_assign l lo (lo + py_len xs) xs) lo (lo + py_len xs) = xs.
Proof.
  intros Hlo Hhi. rewrite py_slice_assign_in_range by done.
  assert (Hlen : py_len (take (Z.to_nat lo) l) = lo).
  { unfold py_len in *. rewrite length_take. lia. }
  rewrite <- Hlen at 3 4. apply py_slice_middle.
Qed.

Lemma py_slice_assign_other {A} (l xs : list A) lo (j : nat) :
  0 <= lo -> lo + py_len xs <= py_len l ->
  Z.of_nat j < lo \/ lo + py_len xs <= Z.of_nat j ->
  py_slice_assign l lo (lo + py_len xs) xs !! j = l !! j.
Proof.
  intros Hlo Hhi Hj. rewrite py_slice_assign_in_range by done.
  unfold py_len in *.
  destruct Hj as [Hj | Hj].
  - rewrite lookup_app_l by (rewrite length_take; lia).
    apply lookup_take_lt. lia.
  - rewrite lookup_app_r by (rewrite length_take; lia).
    rewrite lookup_app_r by (rewrite length_take; lia).
    rewrite lookup_drop, length_take. f_equal. lia.
Qed.

(** The bytes a store form writes are the low bytes of the register. *)
Lemma store_bytes_spec k v :
  store_bytes k v
  = if storable k v then Ok (le_bytes (Z.to_nat (store_width k)) v)
    else Raise OverflowError.
Proof.
  unfold store_bytes, storable, to_bytes.
  change (8 * Z.of_nat 8) with 64. change (64 - 1) with 63.
  destruct k; cbn [store_width].
  1-3: destruct ((- 2 ^ 63 <=? v) && (v <? 2 ^ 63)); cbn [mbind result_bind];
       [|done]; f_equal; apply take_le_bytes;
       change (Z.to_nat 4) with 4%nat; change (Z.to_nat 2) with 2%nat;
       change (Z.to_nat 1) with 1%nat; lia.
  destruct ((0 <=? v) && (v <? 2 ^ 64)); reflexivity.
Qed.

Lemma store_limit_le_width k a : store_limit k a <= store_width k.
Proof. destruct k; simpl; lia. Qed.

Lemma load_limit_le_width k a : load_limit k a <= load_width k.
Proof. destruct k, a; simpl; lia. Qed.

Lemma store_width_pos k : 0 < store_width k.
Proof. destruct k; simpl; lia. Qed.

Lemma load_width_pos k : 0 < load_width k.
Proof. destruct k; simpl; lia. Qed.

(** What a store does when its address passes the test of its form. *)
Lemma exec_store_run cur k rt a s addr sp v :
  address a s = Ok addr ->
  reg s !! "sp" = Some sp ->
  sp <= addr -> addr + store_limit k a <= py_len (mem s) ->
  reg s !! rt = Some v ->
  exec_store cur k rt a s
  = if storable k v
    then Ok (set_mem (py_slice_assign (mem s) addr (addr + store_width k)
                        (le_bytes (Z.to_nat (store_width k)) v))
               (stall cur (addr_regs a) (store_stall k a) s))
    else Raise OverflowError.
Proof.
  intros Ha Hsp Hlo Hhi Hv. unfold exec_store.
  rewrite address_stall, Ha. cbn [mbind result_bind].
  rewrite check_bounds_stall.
  assert (check_bounds addr (store_limit k a) s = Ok tt) as ->
    by (by apply (check_bounds_window _ _ _ sp)).
  cbn [mbind result_bind]. rewrite reg_stall. unfold getitem. rewrite Hv.
  cbn [mbind result_bind]. rewrite store_bytes_spec, mem_stall.
  destruct (storable k v); reflexivity.
Qed.

(** X4: with its address in the window, a store succeeds exactly when the
    register value is encodable: [stur] takes [0 <= v < 2^64] and raises
    [OverflowError] on a negative register, the narrower stores take
    [-2^63 <= v < 2^63]. *)
Theorem store_succeeds_iff_value_encodable
    (host : nat -> machine -> result machine) (k : store_kind)
    (rt : string) (a : addressing) (s : machine) (addr sp v : Z) :
  address a s = Ok addr ->
  reg s !! "sp" = Some sp ->
  sp <= addr -> addr + store_limit k a <= py_len (mem s) ->
  reg s !! rt = Some v ->
  (storable k v = true -> is_ok (execute host (IStore k rt a) s) = true)
  /\ (storable k v = false ->
      execute host (IStore k rt a) s = Raise OverflowError).
Proof.
  intros Ha Hsp Hlo Hhi Hv. unfold execute.
  rewrite (exec_store_run _ k rt a _ addr sp v); try done.
  split; intros ->; reflexivity.
Qed.

Lemma pow_256_as_2 (k : Z) : 0 <= k -> 256 ^ k = 2 ^ (8 * k).
Proof. intros Hk. rewrite Z.pow_mul_r by lia. reflexivity. Qed.

Lemma from_bytes_le_bytes (k : nat) (v : Z) (sg : bool) :
  (0 < k)%nat ->
  from_bytes (le_bytes k v) sg
  = if sg then sign_wrap (8 * Z.of_nat k) v else v mod 2 ^ (8 * Z.of_nat k).
Proof.
  intros Hk. unfold from_bytes, sign_wrap.
  rewrite le_value_le_bytes. unfold py_len. rewrite le_bytes_length.
  rewrite pow_256_as_2 by lia.
  destruct sg; [|reflexivity]. cbn [andb].
  destruct (Z.ltb_spec 0 (8 * Z.of_nat k)); [|lia]. reflexivity.
Qed.

Lemma from_bytes_range (bs : list Z) (sg : bool) :
  Forall (fun b => 0 <= b < 256) bs -> 0 < py_len bs ->
  (if sg then - 2 ^ (8 * py_len bs - 1) else 0)
  <= from_bytes bs sg
  < (if sg then 2 ^ (8 * py_len bs - 1) else 2 ^ (8 * py_len bs)).
Proof.
  intros Hbs Hlen. pose proof (le_value_bound bs Hbs) as Hu.
  rewrite pow_256_as_2 in Hu by lia.
  unfold from_bytes.
  assert (Hp : 2 ^ (8 * py_len bs) = 2 * 2 ^ (8 * py_len bs - 1)).
  { rewrite <- Z.pow_succ_r by lia. f_equal. lia. }
  destruct sg; cbn [andb]; [|lia].
  destruct (Z.ltb_spec 0 (8 * py_len bs)); [|lia]. cbn [andb].
  destruct (Z.leb_spec (2 ^ (8 * py_len bs - 1)) (le_value bs)); lia.
Qed.

(** What a successful store has checked and done. *)
Lemma execute_store_inv host k rt a s s' addr :
  address a s = Ok addr ->
  execute host (IStore k rt a) s = Ok s' ->
  exists v sp,
    reg s !! rt = Some v
    /\ reg s !! "sp" = Some sp /\ sp <= addr
    /\ addr + store_limit k a <= py_len (mem s)
    /\ storable k v = true
    /\ reg s' = reg s
    /\ mem s' = py_slice_assign (mem s) addr (addr + store_width k)
                  (le_bytes (Z.to_nat (store_width k)) v).
Proof.
  intros Ha H. unfold execute, exec_store in H.
  rewrite address_stall in H.
  assert (Ha' : address a (set_last_dst PyNone
            (set_execute_count (execute_count (set_cycle_count (cycle_count s + 1) s) + 1)
               (set_cycle_count (cycle_count s + 1) s))) = Ok addr) by exact Ha.
  rewrite Ha' in H. cbn [mbind result_bind] in H.
  rewrite check_bounds_stall in H.
  destruct (check_bounds _ _ _) eqn:Hchk; cbn [mbind result_bind] in H;
    [|discriminate].
  rewrite reg_stall, mem_stall in H.
  cbn [reg mem set_last_dst set_execute_count set_cycle_count] in H.
  unfold getitem in H. destruct (reg s !! rt) as [v|] eqn:Hv;
    cbn [mbind result_bind] in H; [|discriminate].
  rewrite store_bytes_spec in H.
  destruct (storable k v) eqn:Hst; cbn [mbind result_bind] in H; [|discriminate].
  injection H as <-.
  unfold check_bounds, getitem in Hchk.
  cbn [reg mem set_last_dst set_execute_count set_cycle_count] in Hchk.
  destruct (reg s !! "sp") as [sp|] eqn:Hsp; cbn [mbind result_bind] in Hchk;
    [|discriminate].
  unfold raise_if in Hchk.
  destruct (Z.ltb_spec addr sp), (Z.gtb_spec addr (py_len (mem s) - store_limit k a));
    try discriminate.
  exists v, sp. repeat split; try done; try lia.
  cbn [reg set_mem]. by rewrite reg_stall.
Qed.

Lemma store_slice_facts (m : list Z) (addr w v : Z) :
  0 <= addr -> 0 < w -> addr + w <= py_len m ->
  let bs := le_bytes (Z.to_nat w) v in
  py_len (py_slice_assign m addr (addr + w) bs) = py_len m
  /\ (forall j : nat,
        Z.of_nat j < addr \/ addr + w <= Z.of_nat j ->
        py_slice_assign m addr (addr + w) bs !! j = m !! j)
  /\ py_slice (py_slice_assign m addr (addr + w) bs) addr (addr + w) = bs.
Proof.
  intros Hlo Hw Hhi bs.
  assert (Hbs : py_len bs = w).
  { subst bs. unfold py_len. rewrite le_bytes_length. lia. }
  clearbody bs. rewrite <- Hbs in *.
  split; [by apply py_slice_assign_length|].
  split; [intros j Hj; by apply py_slice_assign_other|].
  by apply py_slice_assign_read.
Qed.

(** X5: a store whose range lies inside memory keeps the length of memory,
    leaves every byte outside [addr, addr + W) as it was, and puts the [W]
    low-order bytes of the register, least significant first, inside it. *)
Theorem store_writes_exactly_its_bytes
    (host : nat -> machine -> result machine) (k : store_kind)
    (rt : string) (a : addressing) (s s' : machine) (addr : Z) :
  address a s = Ok addr ->
  0 <= addr -> addr + store_width k <= py_len (mem s) ->
  execute host (IStore k rt a) s = Ok s' ->
  py_len (mem s') = py_len (mem s)
  /\ (forall j : nat,
        Z.of_nat j < addr \/ addr + store_width k <= Z.of_nat j ->
        mem s' !! j = mem s !! j)
  /\ exists v, reg s !! rt = Some v
       /\ py_slice (mem s') addr (addr + store_width k)
          = le_bytes (Z.to_nat (store_width k)) v.
Proof.
  intros Ha Hlo Hhi H.
  destruct (execute_store_inv host k rt a s s' addr Ha H)
    as (v & sp & Hv & _ & _ & _ & _ & _ & ->).
  destruct (store_slice_facts (mem s) addr (store_width k) v Hlo
              (store_width_pos k) Hhi) as (H1 & H2 & H3).
  split; [exact H1|]. split; [exact H2|]. exists v. by split.
Qed.

(** X6: a load of the same width at the address just stored to reads the
    stored register back reduced to that width: modulo [2^(8W)] for the
    unsigned loads, and as a two's-complement [8W]-bit number for the signed
    ones. *)
Theorem store_then_load_reads_back
    (host : nat -> machine -> result machine) (ks : store_kind)
    (kl : load_kind) (rt rt2 : string) (a : addressing) (s s1 : machine)
    (addr v : Z) :
  load_width kl = store_width ks ->
  address a s = Ok addr ->
  0 <= addr -> addr + store_width ks <= py_len (mem s) ->
  reg s !! rt = Some v ->
  execute host (IStore ks rt a) s = Ok s1 ->
  exists s2,
    execute host (ILoad kl rt2 a) s1 = Ok s2
    /\ reg s2 !! rt2
       = Some (if load_signed kl then sign_wrap (8 * store_width ks) v
               else v mod 2 ^ (8 * store_width ks)).
Proof.
  intros Hw Ha Hlo Hhi Hv H.
  destruct (execute_store_inv host ks rt a s s1 addr Ha H)
    as (v' & sp & Hv' & Hsp & Hge & _ & _ & Hreg & Hmem).
  assert (v' = v) as -> by congruence.
  destruct (store_slice_facts (mem s) addr (store_width ks) v Hlo
              (store_width_pos ks) Hhi) as (H1 & _ & H3).
  rewrite <- Hmem in H1, H3.
  unfold execute.
  set (s1' := set_last_dst _ _).
  destruct (exec_load_ok (cycle_count s1) kl rt2 a s1' addr sp
              (le_bytes (Z.to_nat (store_width ks)) v)) as (s2 & Hs2 & Hrt & _).
  - subst s1'. destruct a; cbn [address reg set_last_dst set_execute_count
      set_cycle_count] in *; by rewrite Hreg.
  - subst s1'. cbn [reg set_last_dst set_execute_count set_cycle_count].
    by rewrite Hreg.
  - exact Hge.
  - subst s1'. cbn [mem set_last_dst set_execute_count set_cycle_count].
    pose proof (load_limit_le_width kl a). lia.
  - subst s1'. cbn [mem set_last_dst set_execute_count set_cycle_count].
    rewrite Hw, H3. apply py_bytes_ok, le_bytes_range.
  - exists s2. split; [exact Hs2|]. rewrite Hrt.
    pose proof (store_width_pos ks).
    rewrite from_bytes_le_bytes by lia.
    rewrite Z2Nat.id by lia. reflexivity.
Qed.

(** X7: a load whose range lies inside memory leaves in [rt] a value of its
    width: in [[0, 2^(8W))] for the unsigned loads and in
    [[-2^(8W-1), 2^(8W-1))] for the signed ones. *)
Theorem load_result_fits_width
    (host : nat -> machine -> result machine) (k : load_kind)
    (rt : string) (a : addressing) (s s' : machine) (addr : Z) :
  address a s = Ok addr ->
  0 <= addr -> addr + load_width k <= py_len (mem s) ->
  execute host (ILoad k rt a) s = Ok s' ->
  exists v,
    reg s' !! rt = Some v
    /\ (if load_signed k then - 2 ^ (8 * load_width k - 1) else 0) <= v
    /\ v < (if load_signed k then 2 ^ (8 * load_width k - 1)
            else 2 ^ (8 * load_width k)).
Proof.
  intros Ha Hlo Hhi H. unfold execute, exec_load in H.
  rewrite address_stall in H.
  assert (Ha' : address a (set_last_dst PyNone
            (set_execute_count (execute_count (set_cycle_count (cycle_count s + 1) s) + 1)
               (set_cycle_count (cycle_count s + 1) s))) = Ok addr) by exact Ha.
  rewrite Ha' in H. cbn [mbind result_bind] in H.
  destruct (check_bounds _ _ _); cbn [mbind result_bind] in H; [|discriminate].
  rewrite mem_stall in H.
  cbn [mem set_last_dst set_execute_count set_cycle_count] in H.
  destruct (py_bytes _) as [bs|] eqn:Hbs; cbn [mbind result_bind] in H;
    [|discriminate].
  injection H as <-.
  apply py_bytes_inv in Hbs as [-> Hrange].
  pose proof (load_width_pos k) as Hw.
  pose proof (py_slice_length (mem s) addr (load_width k) Hlo ltac:(lia) Hhi) as Hlen.
  pose proof (from_bytes_range _ (load_signed k) Hrange ltac:(lia)) as Hfb.
  rewrite Hlen in Hfb.
  eexists. split; [cbn [reg set_ld set_reg set_regs]; apply lookup_insert_eq|].
  exact Hfb.
Qed.

Lemma store_succeeds_iff_value_encodable_witness :
  address (Base "sp") at_label = Ok 4095
  /\ reg at_label !! "sp" = Some 4095
  /\ 4095 <= 4095
  /\ 4095 + store_limit Sturb (Base "sp") <= py_len (mem at_label)
  /\ reg at_label !! "x0" = Some 0
  /\ (storable Sturb 0 = true ->
      is_ok (execute no_host (IStore Sturb "x0" (Base "sp")) at_label) = true)
  /\ (storable Sturb 0 = false ->
      execute no_host (IStore Sturb "x0" (Base "sp")) at_label
      = Raise OverflowError).
Proof.
  split; [reflexivity|]. split; [reflexivity|]. split; [lia|].
  split; [by vm_compute|]. split; [reflexivity|].
  apply (store_succeeds_iff_value_encodable no_host Sturb "x0" (Base "sp")
           at_label 4095 4095 0);
    [reflexivity | reflexivity | lia | by vm_compute | reflexivity].
Defined.

Lemma store_writes_exactly_its_bytes_witness :
  address (Base "sp") at_label = Ok 4095
  /\ 0 <= 4095
  /\ 4095 + store_width Sturb <= py_len (mem at_label)
  /\ execute no_host (IStore Sturb "x0" (Base "sp")) at_label = Ok after_sturb
  /\ py_len (mem after_sturb) = py_len (mem at_label)
  /\ (forall j : nat,
        Z.of_nat j < 4095 \/ 4095 + store_width Sturb <= Z.of_nat j ->
        mem after_sturb !! j = mem at_label !! j)
  /\ exists v, reg at_label !! "x0" = Some v
       /\ py_slice (mem after_sturb) 4095 (4095 + store_width Sturb)
          = le_bytes (Z.to_nat (store_width Sturb)) v.
Proof.
  split; [reflexivity|]. split; [lia|]. split; [by vm_compute|].
  split; [vm_compute; reflexivity|].
  apply (store_writes_exactly_its_bytes no_host Sturb "x0" (Base "sp")
           at_label after_sturb 4095);
    [reflexivity | lia | by vm_compute | vm_compute; reflexivity].
Defined.

Lemma store_then_load_reads_back_witness :
  load_width Ldurb = store_width Sturb
  /\ address (Base "sp") at_label = Ok 4095
  /\ 0 <= 4095
  /\ 4095 + store_width Sturb <= py_len (mem at_label)
  /\ reg at_label !! "x0" = Some 0
  /\ execute no_host (IStore Sturb "x0" (Base "sp")) at_label = Ok after_sturb
  /\ exists s2,
       execute no_host (ILoad Ldurb "x1" (Base "sp")) after_sturb = Ok s2
       /\ reg s2 !! "x1"
          = Some (if load_signed Ldurb then sign_wrap (8 * store_width Sturb) 0
                  else 0 mod 2 ^ (8 * store_width Sturb)).
Proof.
  split; [reflexivity|]. split; [reflexivity|]. split; [lia|].
  split; [by vm_compute|]. split; [reflexivity|].
  split; [vm_compute; reflexivity|].
  apply (store_then_load_reads_back no_host Sturb Ldurb "x0" "x1" (Base "sp")
           at_label after_sturb 4095 0);
    [reflexivity | reflexivity | lia | by vm_compute | reflexivity
    | vm_compute; reflexivity].
Defined.

Lemma load_result_fits_width_witness :
  address (Base "sp") at_label = Ok 4095
  /\ 0 <= 4095
  /\ 4095 + load_width Ldursb <= py_len (mem at_label)
  /\ execute no_host (ILoad Ldursb "x1" (Base "sp")) at_label = Ok after_ldursb
  /\ exists v,
       reg after_ldursb !! "x1" = Some v
       /\ (if load_signed Ldursb then - 2 ^ (8 * load_width Ldursb - 1) else 0) <= v
       /\ v < (if load_signed Ldursb then 2 ^ (8 * load_width Ldursb - 1)
               else 2 ^ (8 * load_width Ldursb)).
Proof.
  split; [reflexivity|]. split; [lia|]. split; [by vm_compute|].
  split; [vm_compute; reflexivity|].
  apply (load_result_fits_width no_host Ldursb "x1" (Base "sp")
           at_label after_ldursb 4095);
    [reflexivity | lia | by vm_compute | vm_compute; reflexivity].
Defined.

(** ** [parse] *)

Lemma append_inj_l a b c : String.append a b = String.append a c -> b = c.
Proof.
  induction a as [|ch a IH]; simpl; [done|].
  intros H. injection H as H. by apply IH.
Qed.

Lemma size_key_neq_type_key name : size_key name <> type_key name.
Proof. intros H. apply append_inj_l in H. discriminate. Qed.

Lemma declare_lookup_size name index size type t :
  declare name index size type t !! size_key name = Some size.
Proof.
  unfold declare.
  rewrite lookup_insert_ne by (intros H; by apply (size_key_neq_type_key name)).
  apply lookup_insert_eq.
Qed.

Lemma declare_lookup_type name index size type t :
  declare name index size type t !! type_key name = Some type.
Proof. unfold declare. apply lookup_insert_eq. Qed.

Lemma encode_number_inv w n bs :
  encode_number w n = Ok bs -> bs = le_bytes w n.
Proof.
  unfold encode_number, to_bytes.
  destruct (number_signed w n); destruct (_ && _); intros H;
    try discriminate; by injection H.
Qed.

(** The loop over the values appends their encodings, in order. *)
Lemma extend_numbers_inv w nums m m' :
  extend_numbers w nums m = Ok m' ->
  m' = (m ++ concat (map (le_bytes w) nums))%list.
Proof.
  revert m. induction nums as [|n nums IH]; intros m H; cbn [extend_numbers] in H.
  - injection H as <-. simpl. by rewrite app_nil_r.
  - destruct (encode_number w n) as [bs|] eqn:E; cbn [mbind result_bind] in H;
      [|discriminate].
    apply encode_number_inv in E as ->. apply IH in H as ->.
    cbn [map concat]. by rewrite <- app_assoc.
Qed.

Lemma py_len_concat_le_bytes w (nums : list Z) :
  py_len (concat (map (le_bytes w) nums)) = py_len nums * Z.of_nat w.
Proof.
  unfold py_len. induction nums as [|n nums IH]; [done|].
  cbn [map concat length]. rewrite length_app, le_bytes_length. lia.
Qed.

Lemma numbers_directive_inv w t name nums s index s' index' :
  numbers_directive w t name nums s index = Ok (s', index') ->
  index' = index + py_len nums * Z.of_nat w
  /\ mem s' = (mem s ++ concat (map (le_bytes w) nums))%list
  /\ sym_table s' = declare name index (py_len nums * Z.of_nat w) t (sym_table s)
  /\ reg s' = reg s /\ asm s' = asm s.
Proof.
  unfold numbers_directive. intros H.
  destruct (extend_numbers w nums (mem s)) as [m|] eqn:E;
    cbn [mbind result_bind] in H; [|discriminate].
  apply extend_numbers_inv in E as ->. injection H as <- <-. by repeat split.
Qed.

Lemma directive_numbers_inv d w name nums s index :
  directive_numbers d = Some (w, name, nums) ->
  exists t, parse_directive d s index = numbers_directive w t name nums s index
            /\ (w, t) ∈ [(8%nat, 1); (4%nat, 3); (2%nat, 4); (1%nat, 5)].
Proof.
  destruct d; intros H; try discriminate; injection H as <- <- <-;
    eexists; (split; [reflexivity|]); set_solver.
Qed.

(** X8: a [.dword], [.word], [.hword] or [.byte] declaration of [k] values
    that parses records the address it started at under the name, [k] times
    the element width under [<name>_SIZE_], and lengthens memory and the
    running index by exactly that many bytes. *)
Theorem numeric_directive_sizes (d : directive) (w : nat) (name : string)
    (nums : list Z) (s s' : machine) (index index' : Z) :
  directive_numbers d = Some (w, name, nums) ->
  parse_directive d s index = Ok (s', index') ->
  sym_table s' !! name = Some index
  /\ sym_table s' !! size_key name = Some (py_len nums * Z.of_nat w)
  /\ py_len (mem s') = py_len (mem s) + py_len nums * Z.of_nat w
  /\ index' = index + py_len nums * Z.of_nat w.
Proof.
  intros Hd H.
  destruct (directive_numbers_inv d w name nums s index Hd) as (t & Ht & _).
  rewrite Ht in H. apply numbers_directive_inv in H as (-> & -> & -> & _).
  split; [apply declare_lookup|]. split; [apply declare_lookup_size|].
  split; [|reflexivity].
  by rewrite py_len_app, py_len_concat_le_bytes.
Qed.

(** ** [getdata] *)

Lemma range_step_exact (k : nat) (w : Z) :
  0 < w ->
  range_step (Z.of_nat k * w) w = map (fun j => Z.of_nat j * w) (seq 0 k).
Proof.
  intros Hw. unfold range_step.
  replace (Z.of_nat k * w + w - 1) with (Z.of_nat k * w + (w - 1)) by lia.
  rewrite Z.div_add_l by lia. rewrite Z.div_small by lia.
  by rewrite Z.add_0_r, Nat2Z.id.
Qed.

(** Reading consecutive [w]-byte elements that were laid down by
    [le_bytes] gives the values reduced modulo [2^(8w)]. *)
Lemma read_chunks (w : nat) (index : Z) (nums : list Z) :
  (0 < w)%nat ->
  forall (pre done tail : list Z) (a : nat),
    py_len pre = index ->
    py_len done = Z.of_nat a * Z.of_nat w ->
    for_each
      (fun i =>
         bs ← py_bytes (py_slice (pre ++ done ++ concat (map (le_bytes w) nums) ++ tail)
                          (index + i) (index + i + Z.of_nat w));
         Ok (from_bytes bs false))
      (map (fun j => Z.of_nat j * Z.of_nat w) (seq a (length nums)))
    = Ok (map (fun v => v mod 2 ^ (8 * Z.of_nat w)) nums).
Proof.
  intros Hw. induction nums as [|n nums IH]; intros pre done tail a Hpre Hdone.
  - reflexivity.
  - cbn [length seq map for_each concat].
    assert (Hslice :
      py_slice (pre ++ done ++ (le_bytes w n ++ concat (map (le_bytes w) nums)) ++ tail)
        (index + Z.of_nat a * Z.of_nat w)
        (index + Z.of_nat a * Z.of_nat w + Z.of_nat w) = le_bytes w n).
    { replace (pre ++ done ++ (le_bytes w n ++ concat (map (le_bytes w) nums)) ++ tail)%list
        with ((pre ++ done) ++ le_bytes w n ++ (concat (map (le_bytes w) nums) ++ tail))%list
        by (by rewrite <- !app_assoc).
      replace (index + Z.of_nat a * Z.of_nat w) with (py_len (pre ++ done))
        by (rewrite py_len_app; lia).
      replace (Z.of_nat w) with (py_len (le_bytes w n)) at 1
        by (unfold py_len; by rewrite le_bytes_length).
      apply py_slice_middle. }
    rewrite Hslice, (py_bytes_ok _ (le_bytes_range w n)).
    cbn [mbind result_bind].
    rewrite (from_bytes_le_bytes w n false Hw).
    specialize (IH pre (done ++ le_bytes w n)%list tail (S a) Hpre).
    replace (pre ++ done ++ (le_bytes w n ++ concat (map (le_bytes w) nums)) ++ tail)%list
      with (pre ++ (done ++ le_bytes w n) ++ concat (map (le_bytes w) nums) ++ tail)%list
      by (by rewrite <- !app_assoc).
    rewrite IH; [reflexivity|].
    rewrite py_len_app, Hdone. unfold py_len. rewrite le_bytes_length. lia.
Qed.

(** X9: [getdata] on a numeric declaration gives back the declared values,
    each reduced modulo [2^(8w)] for its element width [w] (so a negative
    value comes back as its unsigned encoding), whatever was appended to
    memory afterwards. *)
Theorem getdata_returns_declared_numbers (d : directive) (w : nat)
    (name : string) (nums : list Z) (s s1 s2 : machine) (index' : Z)
    (tail : list Z) :
  directive_numbers d = Some (w, name, nums) ->
  parse_directive d s (py_len (mem s)) = Ok (s1, index') ->
  mem s2 = (mem s1 ++ tail)%list ->
  sym_table s2 !! name = sym_table s1 !! name ->
  sym_table s2 !! size_key name = sym_table s1 !! size_key name ->
  sym_table s2 !! type_key name = sym_table s1 !! type_key name ->
  getdata name s2 = Ok (Some (map (fun v => v mod 2 ^ (8 * Z.of_nat w)) nums)).
Proof.
  intros Hd H Hmem Hn Hs Ht.
  destruct (directive_numbers_inv d w name nums s (py_len (mem s)) Hd)
    as (t & Hnd & Hwt).
  rewrite Hnd in H. apply numbers_directive_inv in H as (_ & Hm1 & Hsym & _).
  rewrite Hsym, declare_lookup in Hn.
  rewrite Hsym, declare_lookup_size in Hs.
  rewrite Hsym, declare_lookup_type in Ht.
  assert (Hread : (0 < w)%nat ->
            read_numbers (Z.of_nat w) (py_len (mem s))
              (py_len nums * Z.of_nat w) (mem s2)
            = Ok (map (fun v => v mod 2 ^ (8 * Z.of_nat w)) nums)).
  { intros Hw. unfold read_numbers.
    change (py_len nums) with (Z.of_nat (length nums)).
    rewrite range_step_exact by lia.
    rewrite Hmem, Hm1, <- app_assoc.
    apply (read_chunks w (py_len (mem s)) nums Hw (mem s) [] tail 0%nat);
      [reflexivity | reflexivity]. }
  unfold getdata, getitem. rewrite Ht, Hn, Hs. cbn [mbind result_bind].
  repeat (apply elem_of_cons in Hwt as [Hwt | Hwt];
          [injection Hwt as -> ->; specialize (Hread ltac:(lia));
           exact (f_equal (fun r => r ≫= (fun l => Ok (Some l))) Hread)|]).
  by apply elem_of_nil in Hwt.
Qed.

Lemma ascii_only_ok l : Forall (fun c => 0 <= c < 128) l -> ascii_only l = Ok l.
Proof.
  intros H. unfold ascii_only.
  assert (forallb (fun x => (0 <=? x) && (x <? 128)) l = true) as ->; [|done].
  apply forallb_forall. intros x Hx.
  rewrite Forall_forall in H. specialize (H x).
  rewrite list_elem_of_In in H. specialize (H Hx). lia.
Qed.

Lemma ascii_only_inv l bs : ascii_only l = Ok bs -> bs = l.
Proof.
  unfold ascii_only. destruct (forallb _ l); [|discriminate].
  intros H. by injection H.
Qed.

(** A directive only appends to memory and leaves registers and code alone. *)
Lemma parse_directive_frame d s index s' index' :
  parse_directive d s index = Ok (s', index') ->
  reg s' = reg s /\ asm s' = asm s
  /\ exists data, mem s' = (mem s ++ data)%list.
Proof.
  destruct d; cbn [parse_directive]; intros H.
  - destruct (ascii_only chars) as [bs|] eqn:E; cbn [mbind result_bind] in H;
      [|discriminate].
    injection H as <- <-. repeat split. by exists bs.
  - destruct (operand_lookup _ _) as [z|]; cbn [mbind result_bind] in H;
      [|discriminate].
    injection H as <- <-. repeat split. by eexists.
  - apply numbers_directive_inv in H as (_ & -> & _ & -> & ->).
    repeat split. by eexists.
  - apply numbers_directive_inv in H as (_ & -> & _ & -> & ->).
    repeat split. by eexists.
  - apply numbers_directive_inv in H as (_ & -> & _ & -> & ->).
    repeat split. by eexists.
  - apply numbers_directive_inv in H as (_ & -> & _ & -> & ->).
    repeat split. by eexists.
  - destruct (sym_table s !! name); [|discriminate].
    destruct (getitem _ _); cbn [mbind result_bind] in H; [|discriminate].
    injection H as <- <-. repeat split. exists []. by rewrite app_nil_r.
  - destruct (operand_lookup _ _); cbn [mbind result_bind] in H; [|discriminate].
    injection H as <- <-. repeat split. exists []. by rewrite app_nil_r.
Qed.

Lemma parse_items_frame items s index s' index' :
  parse_items items s index = Ok (s', index') ->
  reg s' = reg s
  /\ asm s' = (asm s ++ code_lines items)%list
  /\ exists data, mem s' = (mem s ++ data)%list.
Proof.
  revert s index. induction items as [|it items IH]; intros s index H;
    cbn [parse_items] in H.
  - injection H as <- <-. repeat split; [by rewrite app_nil_r|].
    exists []. by rewrite app_nil_r.
  - destruct it as [ln | d].
    + apply IH in H as (Hr & Ha & data & Hm). cbn in Hr, Ha, Hm.
      repeat split; [done | by rewrite Ha, <- app_assoc | by exists data].
    + destruct (parse_directive d s index) as [[s1 i1]|] eqn:E;
        cbn [mbind result_bind] in H; [|discriminate].
      apply parse_directive_frame in E as (Hr1 & Ha1 & d1 & Hm1).
      apply IH in H as (Hr & Ha & d2 & Hm).
      repeat split; [congruence | by rewrite Ha, Ha1 |].
      exists (d1 ++ d2)%list. by rewrite Hm, Hm1, <- app_assoc.
Qed.

(** X10: a parse that succeeds only appends to memory: first the 4096 zero
    bytes of the stack, then the declared data.  It points [sp] at the last
    stack byte, leaves the other registers alone, and ends with
    [original_break = brk = len(mem)]. *)
Theorem parse_memory_layout (items : list item) (s s' : machine) :
  parse items s = Ok s' ->
  (exists data, mem s' = (mem s ++ repeat 0 4096 ++ data)%list)
  /\ reg s' !! "sp" = Some (py_len (mem s) + 4095)
  /\ (forall r, r <> "sp" -> reg s' !! r = reg s !! r)
  /\ original_break s' = py_len (mem s')
  /\ brk s' = py_len (mem s').
Proof.
  unfold parse. intros H.
  destruct (parse_items _ _ _) as [[s1 i1]|] eqn:E; cbn [mbind result_bind] in H;
    [|discriminate].
  apply parse_items_frame in E as (Hr & _ & data & Hm).
  cbn [reg mem set_reg set_regs set_mem] in Hr, Hm.
  cbn [brk original_break set_brk set_original_break mem] in H.
  unfold py_assert in H. destruct (Z.eqb_spec i1 (py_len (mem s1))); [|discriminate].
  injection H as <-.
  cbn [reg mem brk original_break set_brk set_original_break].
  split; [exists data; by rewrite Hm, <- app_assoc|].
  rewrite Hr. split.
  - rewrite lookup_insert_eq. f_equal.
    rewrite py_len_app, py_len_repeat. change (Z.of_nat (Z.to_nat STACK_SIZE)) with 4096.
    lia.
  - split; [|done]. intros r Hne. by rewrite lookup_insert_ne.
Qed.



Lemma numeric_directive_sizes_witness :
  directive_numbers (Dword "a" [1; 2; 3]) = Some (8%nat, "a", [1; 2; 3])
  /\ parse_directive (Dword "a" [1; 2; 3]) initial 0
     = Ok (fst declared_three, snd declared_three)
  /\ sym_table (fst declared_three) !! "a" = Some 0
  /\ sym_table (fst declared_three) !! size_key "a"
     = Some (py_len [1; 2; 3] * Z.of_nat 8)
  /\ py_len (mem (fst declared_three))
     = py_len (mem initial) + py_len [1; 2; 3] * Z.of_nat 8
  /\ snd declared_three = 0 + py_len [1; 2; 3] * Z.of_nat 8.
Proof.
  split; [reflexivity|]. split; [vm_compute; reflexivity|].
  apply (numeric_directive_sizes (Dword "a" [1; 2; 3]) 8 "a" [1; 2; 3]
           initial (fst declared_three) 0 (snd declared_three));
    [reflexivity | vm_compute; reflexivity].
Defined.

Lemma getdata_returns_declared_numbers_witness :
  directive_numbers (Dword "a" [1; 2; 3]) = Some (8%nat, "a", [1; 2; 3])
  /\ parse_directive (Dword "a" [1; 2; 3]) initial (py_len (mem initial))
     = Ok (fst declared_three, snd declared_three)
  /\ mem (fst declared_three) = (mem (fst declared_three) ++ [])%list
  /\ getdata "a" (fst declared_three)
     = Ok (Some (map (fun v => v mod 2 ^ (8 * Z.of_nat 8)) [1; 2; 3])).
Proof.
  split; [reflexivity|]. split; [vm_compute; reflexivity|].
  split; [by rewrite app_nil_r|].
  apply (getdata_returns_declared_numbers (Dword "a" [1; 2; 3]) 8 "a" [1; 2; 3]
           initial (fst declared_three) (fst declared_three)
           (snd declared_three) []);
    [reflexivity | vm_compute; reflexivity | by rewrite app_nil_r
    | reflexivity | reflexivity | reflexivity].
Defined.

Lemma parse_memory_layout_witness :
  parse small_program initial = Ok parsed_small
  /\ (exists data, mem parsed_small = (mem initial ++ repeat 0 4096 ++ data)%list)
  /\ reg parsed_small !! "sp" = Some (py_len (mem initial) + 4095)
  /\ (forall r, r <> "sp" -> reg parsed_small !! r = reg initial !! r)
  /\ original_break parsed_small = py_len (mem parsed_small)
  /\ brk parsed_small = py_len (mem parsed_small).
Proof.
  split; [vm_compute; reflexivity|].
  apply (parse_memory_layout small_program initial parsed_small).
  vm_compute; reflexivity.
Defined.



(** ** Labels that look like registers *)

Lemma substring_prefix (p post : string) :
  substring 0 (String.length p) (String.append p post) = p.
Proof.
  induction p as [|c p IH]; simpl; [destruct post; reflexivity | by rewrite IH].
Qed.

Lemma substring_middle (pre p post : string) :
  substring (String.length pre) (String.length p)
    (String.append pre (String.append p post)) = p.
Proof. induction pre as [|c pre IH]; simpl; [exact (substring_prefix p post) | exact IH]. Qed.

Lemma has_sub_middle (pre p post : string) :
  p <> "" -> has_sub p (String.append pre (String.append p post)) = true.
Proof.
  intros Hp. unfold has_sub.
  destruct (String.index 0 p _) eqn:E; [done|].
  exfalso.
  apply (String.index_correct3 0 (String.length pre) p _ E Hp); [lia|].
  apply substring_middle.
Qed.

Lemma mentions_register_bare (r pre post : string) :
  r ∈ bare_register_names ->
  mentions_register (String.append pre (String.append r post)) = true.
Proof.
  intros Hr. unfold mentions_register, bare_register_names in *.
  repeat (apply elem_of_cons in Hr as [-> | Hr];
          [rewrite has_sub_middle by discriminate;
           rewrite ?orb_true_r; reflexivity|]).
  by apply elem_of_nil in Hr.
Qed.

(** X13: a branch whose label contains [lr], [fp], [sp] or [xzr] anywhere
    (as in [display] or [clrscr]) is refused with a [ValueError] by every
    branch form, before any state is looked at. *)
Theorem branch_to_label_containing_register_name_fails
    (host : nat -> machine -> result machine) (s : machine) (c : cond)
    (rn r pre post : string) (i : instr) :
  r ∈ bare_register_names ->
  i ∈ label_branches c rn (String.append pre (String.append r post)) ->
  exists msg, execute host i s = Raise (ValueError msg).
Proof.
  intros Hr Hi. pose proof (mentions_register_bare r pre post Hr) as Hm.
  unfold label_branches in Hi.
  repeat (apply elem_of_cons in Hi as [-> | Hi];
          [unfold execute, exec_bl, exec_bcond, exec_cb; rewrite Hm;
           eexists; reflexivity|]).
  by apply elem_of_nil in Hi.
Qed.

Lemma branch_to_label_containing_register_name_fails_witness :
  "sp" ∈ bare_register_names
  /\ (IB "display" ∈ label_branches EQ "x0" (String.append "di" (String.append "sp" "lay")))
  /\ exists msg, execute no_host (IB "display") initial = Raise (ValueError msg).
Proof.
  assert (H1 : "sp" ∈ bare_register_names)
    by (unfold bare_register_names; repeat constructor).
  assert (H2 : IB "display"
               ∈ label_branches EQ "x0" (String.append "di" (String.append "sp" "lay")))
    by (unfold label_branches; constructor).
  split; [exact H1|]. split; [exact H2|].
  apply (branch_to_label_containing_register_name_fails no_host initial EQ
           "x0" "sp" "di" "lay" (IB "display") H1 H2).
Defined.

(** ** More of the [brk] system call *)

(** X14: [brk] with an argument below the original break changes nothing but
    [x0], which receives the current break. *)
Theorem brk_below_original_break_returns_current
    (host : nat -> machine -> result machine) (s : machine) (new_brk : Z) :
  reg s !! "x8" = Some 214 ->
  reg s !! "x0" = Some new_brk ->
  new_brk < original_break s ->
  exists s',
    execute host ISvc0 s = Ok s'
    /\ reg s' = <["x0" := brk s]> (reg s)
    /\ mem s' = mem s /\ brk s' = brk s.
Proof.
  intros Hx8 Hx0 Hlt. unfold execute. rewrite exec_svc_brk by exact Hx8.
  unfold sys_brk, getitem. cbn [reg set_last_dst set_execute_count set_cycle_count].
  rewrite Hx0. cbn [mbind result_bind original_break set_last_dst
    set_execute_count set_cycle_count].
  destruct (Z.ltb_spec new_brk (original_break s)); [|lia].
  eexists. split; [reflexivity|]. by repeat split.
Qed.

Lemma brk_page_bounds (size : Z) :
  0 < size ->
  size < size + 4096 - size mod 4096
  /\ (size + 4096 - size mod 4096 <= HEAP_SIZE <-> size < HEAP_SIZE).
Proof.
  intros Hsize. unfold HEAP_SIZE.
  pose proof (Z.mod_pos_bound size 4096 ltac:(lia)).
  pose proof (Z.div_mod size 4096 ltac:(lia)).
  split; [lia|]. split; intros Hb.
  - lia.
  - assert (size / 4096 <= 3).
    { apply Z.lt_succ_r. apply Z.div_lt_upper_bound; lia. }
    lia.
Qed.

(** X15: a request above the original break succeeds exactly when it is less
    than 16 KiB above it.  It then sets [brk] to the request, leaves
    registers and the first [original_break] bytes of memory alone, and
    memory reaches at least up to the new break; a request 16 KiB or more
    above the original break raises [ValueError]. *)
Theorem brk_request_within_heap_cap
    (host : nat -> machine -> result machine) (s : machine) (new_brk : Z) :
  reg s !! "x8" = Some 214 ->
  reg s !! "x0" = Some new_brk ->
  original_break s < new_brk ->
  0 <= original_break s <= py_len (mem s) ->
  (new_brk - original_break s < HEAP_SIZE ->
   exists s',
     execute host ISvc0 s = Ok s'
     /\ brk s' = new_brk
     /\ new_brk <= py_len (mem s')
     /\ take (Z.to_nat (original_break s)) (mem s')
        = take (Z.to_nat (original_break s)) (mem s)
     /\ reg s' = reg s)
  /\ (HEAP_SIZE <= new_brk - original_break s ->
      exists msg, execute host ISvc0 s = Raise (ValueError msg)).
Proof.
  intros Hx8 Hx0 Hgt Hob. unfold execute. rewrite exec_svc_brk by exact Hx8.
  unfold sys_brk, getitem. cbn [reg mem original_break set_last_dst
    set_execute_count set_cycle_count].
  rewrite Hx0. cbn [mbind result_bind].
  destruct (Z.ltb_spec new_brk (original_break s)); [lia|].
  destruct (Z.eqb_spec new_brk (original_break s)); [lia|].
  set (size := new_brk - original_break s).
  destruct (brk_page_bounds size ltac:(lia)) as [Hpage Hcap].
  set (page := size + 4096 - size mod 4096) in *.
  unfold py_assert. destruct (Z.leb_spec 0 size); [|lia].
  cbn [mbind result_bind]. unfold raise_if.
  split.
  - intros Hlt. destruct (Z.gtb_spec page HEAP_SIZE); [lia|].
    cbn [mbind result_bind].
    destruct (Z.gtb_spec (py_len (mem s)) (page + original_break s)) as [Hbig | Hsmall];
      cbn [reg mem set_mem set_last_dst set_execute_count set_cycle_count];
      rewrite Hx0; cbn [mbind result_bind]; eexists; (split; [reflexivity|]);
      cbn [reg mem brk set_brk set_mem set_last_dst set_execute_count set_cycle_count].
    + split; [done|]. 
      assert (Hs : py_slice (mem s) 0 (page + original_break s)
                   = take (Z.to_nat (page + original_break s)) (mem s)).
      { unfold py_slice, slice_bound. cbn [Z.ltb].
        destruct (Z.ltb_spec (page + original_break s) 0); [lia|].
        rewrite Z.min_l by (pose proof (py_len_nonneg (mem s)); lia).
        rewrite Z.min_l by lia. by rewrite Z.sub_0_r. }
      rewrite Hs. split.
      * unfold py_len in *. rewrite length_take. lia.
      * split; [|done]. rewrite take_take. f_equal. lia.
    + split; [done|]. split.
      * rewrite py_len_app, py_len_repeat. lia.
      * split; [|done]. apply take_app_le. unfold py_len in *. lia.
  - intros Hge. destruct (Z.gtb_spec page HEAP_SIZE); [|lia].
    eexists. reflexivity.
Qed.

(** ** Turns of the driver loop *)

(** [find_label] returns the position of a label line with that name. *)
Lemma find_label_spec label code i :
  find_label label code = Some i -> code !! i = Some (Lbl label).
Proof.
  revert i. induction code as [|ln code IH]; intros i H; [discriminate|].
  cbn [find_label] in H. destruct ln as [n | ins].
  - destruct (String.eqb_spec n label) as [-> | Hne].
    + by injection H as <-.
    + destruct (find_label label code) as [j|]; [|discriminate].
      injection H as <-. by apply IH.
  - destruct (find_label label code) as [j|]; [|discriminate].
    injection H as <-. by apply IH.
Qed.

Lemma find_label_lt label code i :
  find_label label code = Some i -> (i < length code)%nat.
Proof. intros H. apply find_label_spec in H. by apply lookup_lt_Some in H. Qed.

(** X16: a turn of the loop that executes [b <label>] leaves the program
    counter one past the label line, so the jump itself does not count a hit
    of the label: the hit table is unchanged. *)
Theorem branch_resumes_after_label_line
    (host : nat -> machine -> result machine) (s : machine)
    (recursed : gset string) (label : string) (i : nat) :
  py_index (asm s) (pc s) = Ok (Ins (IB label)) ->
  stack_checks s = Ok tt ->
  mentions_register label = false ->
  find_label label (asm s) = Some i ->
  exists s',
    run_iter host (s, recursed) = Ok (s', recursed)
    /\ asm s' !! i = Some (Lbl label)
    /\ pc s' = Z.of_nat i + 1
    /\ label_hit_counts s' = label_hit_counts s.
Proof.
  intros Hfetch Hchk Hreg Hlab. unfold run_iter.
  rewrite Hfetch. cbn [mbind result_bind]. rewrite Hchk. cbn [mbind result_bind].
  unfold execute. rewrite Hreg. cbn [raise_if mbind result_bind].
  unfold goto. cbn [asm set_last_dst set_execute_count set_cycle_count].
  rewrite Hlab. cbn [mbind result_bind].
  eexists. split; [reflexivity|].
  cbn. split; [by apply find_label_spec|]. by split.
Qed.

(** X17: exit ([svc 0] with [x8 = 93]) ends the run: after that turn the loop
    guard is false, so the loop returns at once whatever fuel is left, with
    every register but [xzr] as the program left it. *)
Theorem exit_syscall_ends_the_loop
    (host : nat -> machine -> result machine) (s : machine)
    (recursed : gset string) :
  py_index (asm s) (pc s) = Ok (Ins ISvc0) ->
  stack_checks s = Ok tt ->
  reg s !! "x8" = Some 93 ->
  exists s',
    run_iter host (s, recursed) = Ok (s', recursed)
    /\ (forall fuel, run_loop host fuel (s', recursed) = Ok (Some (s', recursed)))
    /\ reg s' = <["xzr" := 0]> (reg s)
    /\ mem s' = mem s.
Proof.
  intros Hfetch Hchk Hx8. unfold run_iter.
  rewrite Hfetch. cbn [mbind result_bind]. rewrite Hchk. cbn [mbind result_bind].
  unfold execute, exec_svc, getitem.
  cbn [reg set_last_dst set_execute_count set_cycle_count].
  rewrite Hx8. cbn [mbind result_bind Z.eqb Pos.eqb].
  eexists. split; [reflexivity|]. split; [|by split].
  intros fuel. destruct fuel; cbn [run_loop fst]; proj_all;
    destruct (Z.ltb_spec (py_len (asm s) + 1) (py_len (asm s))); try lia;
    reflexivity.
Qed.

(** X18: [bl <label>] at program counter [p] saves [p] in [lr], counts a hit of
    the label and resumes after the label line; a later [br lr] that finds
    [p] in [lr] resumes at [p + 1], the line after the call. *)
Theorem call_and_return_resume_after_call
    (host : nat -> machine -> result machine) (s : machine)
    (recursed : gset string) (label : string) (i : nat) (c : Z) :
  py_index (asm s) (pc s) = Ok (Ins (IBl label)) ->
  0 <= pc s ->
  stack_checks s = Ok tt ->
  reg s !! "lr" <> None ->
  mentions_register label = false ->
  linked_labels s !! String.append label ":" = None ->
  label_hit_counts s !! String.append label ":" = Some c ->
  find_label label (asm s) = Some i ->
  exists s1 recursed1,
    run_iter host (s, recursed) = Ok (s1, recursed1)
    /\ reg s1 !! "lr" = Some (pc s)
    /\ pc s1 = Z.of_nat i + 1
    /\ label_hit_counts s1 !! String.append label ":" = Some (c + 1)
    /\ forall (s2 : machine) (recursed2 : gset string),
         asm s2 = asm s ->
         reg s2 !! "lr" = Some (pc s) ->
         py_index (asm s2) (pc s2) = Ok (Ins IBrLr) ->
         stack_checks s2 = Ok tt ->
         exists s3,
           run_iter host (s2, recursed2) = Ok (s3, recursed2)
           /\ pc s3 = pc s + 1.
Proof.
  intros Hfetch Hpc Hchk Hlr Hreg Hlinked Hcount Hlab.
  assert (Hrange : pc s < py_len (asm s)).
  { unfold py_index in Hfetch. destruct (Z.ltb_spec (pc s) 0); [lia|].
    destruct (Z.ltb_spec (pc s) 0); [lia|]. cbn [orb] in Hfetch.
    destruct (Z.leb_spec (py_len (asm s)) (pc s)); [discriminate | lia]. }
  unfold run_iter at 1. rewrite Hfetch. cbn [mbind result_bind].
  unfold getitem at 1. destruct (reg s !! "lr") as [lr|] eqn:Elr; [|done].
  cbn [mbind result_bind]. rewrite Hchk. cbn [mbind result_bind].
  unfold execute, exec_bl. rewrite Hreg. cbn [raise_if mbind result_bind].
  destruct (flag_stall_effect (cycle_count s)
              (set_last_dst PyNone
                 (set_execute_count
                    (execute_count (set_cycle_count (cycle_count s + 1) s) + 1)
                    (set_cycle_count (cycle_count s + 1) s)))) as (d & -> & _).
  proj_all. rewrite Hcount. proj_all. rewrite Hlinked.
  unfold goto. proj_all. rewrite Hlab. cbn [mbind result_bind]. proj_all.
  eexists _, _. split; [reflexivity|]. proj_all.
  split.
  { rewrite lookup_insert_ne by discriminate. apply lookup_insert_eq. }
  split; [reflexivity|]. split; [apply lookup_insert_eq|].
  intros s2 recursed2 Hasm Hlr2 Hfetch2 Hchk2.
  unfold run_iter. rewrite Hfetch2. cbn [mbind result_bind].
  rewrite Hchk2. cbn [mbind result_bind].
  unfold execute, exec_br_lr, getitem. proj_all. rewrite Hlr2.
  cbn [mbind result_bind]. rewrite Hasm. unfold raise_if.
  destruct (Z.leb_spec 0 (pc s)); [|lia].
  destruct (Z.ltb_spec (pc s) (py_len (asm s))); [|lia].
  cbn [andb negb mbind result_bind]. eexists. split; [reflexivity|].
  reflexivity.
Qed.

(** X19: the hit table built at the start of a run holds a zero count for
    every label line of the program and for every linked label. *)
Theorem label_table_starts_at_zero (s : machine) (key : string) :
  key ∈ label_keys (asm s) \/ is_Some (linked_labels s !! key) ->
  label_hit_counts (init_label_hit_counts s) !! key = Some 0.
Proof.
  intros Hkey. unfold init_label_hit_counts. cbn [label_hit_counts set_label_hit_counts].
  set (keys := (label_keys (asm s) ++ map fst (map_to_list (linked_labels s)))%list).
  assert (Hin : key ∈ keys).
  { subst keys. apply elem_of_app. destruct Hkey as [Hl | [f Hf]]; [by left|right].
    apply list_elem_of_fmap. exists (key, f). split; [done|].
    by apply elem_of_map_to_list. }
  clearbody keys. induction keys as [|k keys IH]; [by apply elem_of_nil in Hin|].
  cbn [map]. rewrite list_to_map_cons. destruct (decide (k = key)) as [-> | Hne].
  - apply lookup_insert_eq.
  - rewrite lookup_insert_ne by done. apply IH.
    apply elem_of_cons in Hin as [-> | Hin]; [done | exact Hin].
Qed.

(** ** The [read] and [write] system calls *)

Lemma py_slice_from_zero {A} (l : list A) (n : Z) :
  0 <= n -> py_slice l 0 n = take (Z.to_nat n) l.
Proof.
  intros Hn. unfold py_slice, slice_bound. cbn [Z.ltb].
  pose proof (py_len_nonneg l).
  destruct (Z.ltb_spec n 0); [lia|].
  rewrite (Z.min_l 0) by lia. rewrite Z.sub_0_r.
  change (Z.to_nat 0) with 0%nat. rewrite drop_0.
  destruct (Z.le_gt_cases n (py_len l)).
  - by rewrite Z.min_l by lia.
  - rewrite Z.min_r by lia. unfold py_len in *.
    rewrite (take_ge l (Z.to_nat n)) by lia. apply take_ge. lia.
Qed.

(** X20: [write] ([svc 0] with [x8 = 64]) refuses any descriptor but 1 with an
    [AssertionError]; with [x0 = 1] and ASCII bytes in [mem[x1:x1+x2]] it
    appends exactly those bytes to standard output and changes neither
    memory nor registers. *)
Theorem write_syscall_appends_to_stdout
    (host : nat -> machine -> result machine) (s : machine) (fd addr len : Z) :
  reg s !! "x8" = Some 64 ->
  reg s !! "x0" = Some fd ->
  reg s !! "x1" = Some addr ->
  reg s !! "x2" = Some len ->
  (fd <> 1 -> exists msg, execute host ISvc0 s = Raise (AssertionError msg))
  /\ (fd = 1 ->
      Forall (fun b => 0 <= b < 128) (py_slice (mem s) addr (addr + len)) ->
      exists s',
        execute host ISvc0 s = Ok s'
        /\ stdout s' = (stdout s ++ py_slice (mem s) addr (addr + len))%list
        /\ mem s' = mem s /\ reg s' = reg s).
Proof.
  intros Hx8 Hx0 Hx1 Hx2. unfold execute, exec_svc, getitem.
  cbn [reg set_last_dst set_execute_count set_cycle_count].
  rewrite Hx8. cbn [mbind result_bind Z.eqb Pos.eqb].
  unfold sys_write, getitem.
  cbn [reg mem stdout set_last_dst set_execute_count set_cycle_count].
  rewrite Hx0, Hx1, Hx2. cbn [mbind result_bind]. unfold py_assert.
  split.
  - intros Hfd. destruct (Z.eqb_spec fd 1); [done|]. by eexists.
  - intros -> Hascii. cbn [Z.eqb Pos.eqb mbind result_bind].
    rewrite py_bytes_ok
      by (eapply Forall_impl; [exact Hascii|]; simpl; intros; lia).
    cbn [mbind result_bind]. rewrite (ascii_only_ok _ Hascii).
    cbn [mbind result_bind]. eexists. split; [reflexivity|]. by repeat split.
Qed.

(** X21: [read] ([svc 0] with [x8 = 63]) raises [EOFError] when no input line
    is left.  Otherwise it consumes one line, appends a newline, keeps at
    most [x2] characters, returns their number in [x0] and, when they fit
    inside memory at [x1], stores them there without changing the length of
    memory. *)
Theorem read_syscall_stores_truncated_line
    (host : nat -> machine -> result machine) (s : machine) (addr len : Z) :
  reg s !! "x8" = Some 63 ->
  reg s !! "x1" = Some addr ->
  reg s !! "x2" = Some len ->
  0 <= len ->
  match stdin s with
  | [] => execute host ISvc0 s = Raise EOFError
  | ln :: rest =>
      Forall (fun c => 0 <= c < 128) ln ->
      let enter := take (Z.to_nat len) (ln ++ [10]) in
      exists s',
        execute host ISvc0 s = Ok s'
        /\ reg s' !! "x0" = Some (Z.min len (py_len ln + 1))
        /\ py_len enter = Z.min len (py_len ln + 1)
        /\ stdin s' = rest
        /\ (0 <= addr -> addr + py_len enter <= py_len (mem s) ->
            py_len (mem s') = py_len (mem s)
            /\ py_slice (mem s') addr (addr + py_len enter) = enter)
  end.
Proof.
  intros Hx8 Hx1 Hx2 Hlen. unfold execute, exec_svc, getitem.
  cbn [reg set_last_dst set_execute_count set_cycle_count].
  rewrite Hx8. cbn [mbind result_bind Z.eqb Pos.eqb].
  unfold sys_read, getitem.
  cbn [reg mem stdin set_last_dst set_execute_count set_cycle_count].
  rewrite Hx1, Hx2. cbn [mbind result_bind].
  destruct (stdin s) as [|ln rest]; [reflexivity|].
  cbv beta iota zeta. intros Hascii.
  rewrite py_slice_from_zero by done.
  set (enter := take (Z.to_nat len) (ln ++ [10])).
  assert (Henter : Forall (fun c => 0 <= c < 128) enter).
  { subst enter. apply Forall_take, Forall_app. split; [done|].
    repeat constructor; lia. }
  rewrite (ascii_only_ok _ Henter). cbn [mbind result_bind].
  assert (Hn : py_len enter = Z.min len (py_len ln + 1)).
  { subst enter. unfold py_len. rewrite length_take, length_app. simpl. lia. }
  eexists. split; [reflexivity|].
  cbn [reg mem stdin set_reg set_regs set_mem set_stdin set_last_dst
       set_execute_count set_cycle_count].
  split; [rewrite lookup_insert_eq; by rewrite Hn|].
  split; [exact Hn|]. split; [reflexivity|].
  intros Haddr Hfit.
  split; [by apply py_slice_assign_length | by apply py_slice_assign_read].
Qed.

Lemma brk_below_original_break_returns_current_witness :
  reg (brk_request 0) !! "x8" = Some 214
  /\ reg (brk_request 0) !! "x0" = Some 0
  /\ 0 < original_break (brk_request 0)
  /\ exists s',
       execute no_host ISvc0 (brk_request 0) = Ok s'
       /\ reg s' = <["x0" := brk (brk_request 0)]> (reg (brk_request 0))
       /\ mem s' = mem (brk_request 0) /\ brk s' = brk (brk_request 0).
Proof.
  split; [reflexivity|]. split; [reflexivity|]. split; [by vm_compute|].
  apply (brk_below_original_break_returns_current no_host (brk_request 0) 0);
    [reflexivity | reflexivity | by vm_compute].
Defined.

Lemma brk_request_within_heap_cap_witness :
  reg (brk_request 5000) !! "x8" = Some 214
  /\ reg (brk_request 5000) !! "x0" = Some 5000
  /\ original_break (brk_request 5000) < 5000
  /\ 0 <= original_break (brk_request 5000) <= py_len (mem (brk_request 5000))
  /\ (5000 - original_break (brk_request 5000) < HEAP_SIZE ->
      exists s',
        execute no_host ISvc0 (brk_request 5000) = Ok s'
        /\ brk s' = 5000
        /\ 5000 <= py_len (mem s')
        /\ take (Z.to_nat (original_break (brk_request 5000))) (mem s')
           = take (Z.to_nat (original_break (brk_request 5000)))
               (mem (brk_request 5000))
        /\ reg s' = reg (brk_request 5000))
  /\ (HEAP_SIZE <= 5000 - original_break (brk_request 5000) ->
      exists msg, execute no_host ISvc0 (brk_request 5000) = Raise (ValueError msg)).
Proof.
  assert (H1 : original_break (brk_request 5000) < 5000) by (by vm_compute).
  assert (H2 : 0 <= original_break (brk_request 5000)
               <= py_len (mem (brk_request 5000)))
    by (split; vm_compute; discriminate).
  split; [reflexivity|]. split; [reflexivity|]. split; [exact H1|].
  split; [exact H2|].
  apply (brk_request_within_heap_cap no_host (brk_request 5000) 5000);
    [reflexivity | reflexivity | exact H1 | exact H2].
Defined.

Lemma branch_resumes_after_label_line_witness :
  py_index (asm at_branch) (pc at_branch) = Ok (Ins (IB "done"))
  /\ stack_checks at_branch = Ok tt
  /\ mentions_register "done" = false
  /\ find_label "done" (asm at_branch) = Some 1%nat
  /\ exists s',
       run_iter no_host (at_branch, ∅) = Ok (s', ∅)
       /\ asm s' !! 1%nat = Some (Lbl "done")
       /\ pc s' = Z.of_nat 1 + 1
       /\ label_hit_counts s' = label_hit_counts at_branch.
Proof.
  split; [reflexivity|]. split; [reflexivity|]. split; [reflexivity|].
  split; [reflexivity|].
  apply (branch_resumes_after_label_line no_host at_branch ∅ "done" 1);
    reflexivity.
Defined.

Lemma exit_syscall_ends_the_loop_witness :
  py_index (asm at_exit) (pc at_exit) = Ok (Ins ISvc0)
  /\ stack_checks at_exit = Ok tt
  /\ reg at_exit !! "x8" = Some 93
  /\ exists s',
       run_iter no_host (at_exit, ∅) = Ok (s', ∅)
       /\ (forall fuel, run_loop no_host fuel (s', ∅) = Ok (Some (s', ∅)))
       /\ reg s' = <["xzr" := 0]> (reg at_exit)
       /\ mem s' = mem at_exit.
Proof.
  split; [reflexivity|]. split; [reflexivity|]. split; [reflexivity|].
  apply (exit_syscall_ends_the_loop no_host at_exit ∅); reflexivity.
Defined.

Lemma call_and_return_resume_after_call_witness :
  py_index (asm at_call) (pc at_call) = Ok (Ins (IBl "f"))
  /\ 0 <= pc at_call
  /\ stack_checks at_call = Ok tt
  /\ reg at_call !! "lr" <> None
  /\ mentions_register "f" = false
  /\ linked_labels at_call !! String.append "f" ":" = None
  /\ label_hit_counts at_call !! String.append "f" ":" = Some 0
  /\ find_label "f" (asm at_call) = Some 1%nat
  /\ exists s1 recursed1,
       run_iter no_host (at_call, ∅) = Ok (s1, recursed1)
       /\ reg s1 !! "lr" = Some (pc at_call)
       /\ pc s1 = Z.of_nat 1 + 1
       /\ label_hit_counts s1 !! String.append "f" ":" = Some (0 + 1)
       /\ forall (s2 : machine) (recursed2 : gset string),
            asm s2 = asm at_call ->
            reg s2 !! "lr" = Some (pc at_call) ->
            py_index (asm s2) (pc s2) = Ok (Ins IBrLr) ->
            stack_checks s2 = Ok tt ->
            exists s3,
              run_iter no_host (s2, recursed2) = Ok (s3, recursed2)
              /\ pc s3 = pc at_call + 1.
Proof.
  assert (Hlr : reg at_call !! "lr" <> None) by (by vm_compute).
  split; [reflexivity|]. split; [by vm_compute|]. split; [reflexivity|].
  split; [exact Hlr|]. split; [reflexivity|]. split; [reflexivity|].
  split; [reflexivity|]. split; [reflexivity|].
  apply (call_and_return_resume_after_call no_host at_call ∅ "f" 1 0);
    [reflexivity | by vm_compute | reflexivity | exact Hlr | reflexivity
    | reflexivity | reflexivity | reflexivity].
Defined.

Lemma label_table_starts_at_zero_witness :
  ("done:" ∈ label_keys (asm parsed_small)
   \/ is_Some (linked_labels parsed_small !! "done:"))
  /\ label_hit_counts (init_label_hit_counts parsed_small) !! "done:" = Some 0.
Proof.
  assert (H : "done:" ∈ label_keys (asm parsed_small)
              \/ is_Some (linked_labels parsed_small !! "done:")).
  { left. assert (label_keys (asm parsed_small) = ["done:"]) as ->
      by (vm_compute; reflexivity).
    constructor. }
  split; [exact H|].
  apply (label_table_starts_at_zero parsed_small "done:" H).
Defined.

Lemma write_syscall_appends_to_stdout_witness :
  reg at_write !! "x8" = Some 64
  /\ reg at_write !! "x0" = Some 1
  /\ reg at_write !! "x1" = Some 4096
  /\ reg at_write !! "x2" = Some 8
  /\ (1 <> 1 -> exists msg, execute no_host ISvc0 at_write = Raise (AssertionError msg))
  /\ (1 = 1 ->
      Forall (fun b => 0 <= b < 128) (py_slice (mem at_write) 4096 (4096 + 8)) ->
      exists s',
        execute no_host ISvc0 at_write = Ok s'
        /\ stdout s' = (stdout at_write ++ py_slice (mem at_write) 4096 (4096 + 8))%list
        /\ mem s' = mem at_write /\ reg s' = reg at_write).
Proof.
  split; [reflexivity|]. split; [reflexivity|]. split; [reflexivity|].
  split; [reflexivity|].
  apply (write_syscall_appends_to_stdout no_host at_write 1 4096 8); reflexivity.
Defined.

Lemma read_syscall_stores_truncated_line_witness :
  reg at_read !! "x8" = Some 63
  /\ reg at_read !! "x1" = Some 4096
  /\ reg at_read !! "x2" = Some 2
  /\ 0 <= 2
  /\ match stdin at_read with
     | [] => execute no_host ISvc0 at_read = Raise EOFError
     | ln :: rest =>
         Forall (fun c => 0 <= c < 128) ln ->
         let enter := take (Z.to_nat 2) (ln ++ [10]) in
         exists s',
           execute no_host ISvc0 at_read = Ok s'
           /\ reg s' !! "x0" = Some (Z.min 2 (py_len ln + 1))
           /\ py_len enter = Z.min 2 (py_len ln + 1)
           /\ stdin s' = rest
           /\ (0 <= 4096 -> 4096 + py_len enter <= py_len (mem at_read) ->
               py_len (mem s') = py_len (mem at_read)
               /\ py_slice (mem s') 4096 (4096 + py_len enter) = enter)
     end.
Proof.
  split; [reflexivity|]. split; [reflexivity|]. split; [reflexivity|].
  split; [lia|].
  apply (read_syscall_stores_truncated_line no_host at_read 4096 2);
    [reflexivity | reflexivity | reflexivity | lia].
Defined.

(** ** Logical shifts *)

Lemma land_mask64 (x : Z) : Z.land x MASK64 = x mod 2 ^ 64.
Proof. change MASK64 with (Z.ones 64). apply Z.land_ones. lia. Qed.

Lemma shift_value_range op x y v :
  shift_value op x y = Ok v -> 0 <= y /\ 0 <= v < 2 ^ 64.
Proof.
  unfold shift_value. destruct (Z.ltb_spec y 0); [discriminate|].
  assert (Hp : 0 < 2 ^ y) by (apply Z.pow_pos_nonneg; lia).
  destruct op; intros Hv; injection Hv as <-; (split; [done|]).
  - rewrite land_mask64, Z.shiftr_div_pow2 by done.
    pose proof (Z.mod_pos_bound x (2 ^ 64) ltac:(lia)) as Hm.
    split; [apply Z.div_pos; lia|].
    apply Z.div_lt_upper_bound; [lia|]. nia.
  - rewrite land_mask64. apply Z.mod_pos_bound. lia.
Qed.

(** X22: [lsl] and [lsr] that execute leave a value in [[0, 2^64)] in [rd],
    whatever the operands; a negative shift amount makes them raise
    [ValueError]. *)
Theorem shift_result_is_64_bit
    (host : nat -> machine -> result machine) (op : shift_op)
    (rd rn : string) (o : operand2) (s : machine) (x y : Z) :
  reg s !! rn = Some x ->
  operand_value o s = Ok y ->
  (y < 0 -> exists msg, execute host (IShift op rd rn o) s = Raise (ValueError msg))
  /\ (0 <= y ->
      exists s' v, execute host (IShift op rd rn o) s = Ok s'
        /\ reg s' !! rd = Some v /\ 0 <= v < 2 ^ 64).
Proof.
  intros Hx Hy. unfold execute. rewrite reg_stall.
  cbn [reg set_last_dst set_execute_count set_cycle_count].
  unfold getitem. rewrite Hx. cbn [mbind result_bind].
  assert (Ho : forall m, reg m = reg s -> operand_value o m = operand_value o s).
  { intros m Hm. destruct o; simpl; [done | by rewrite Hm]. }
  rewrite Ho by (rewrite reg_stall; reflexivity). rewrite Hy.
  cbn [mbind result_bind].
  split.
  - intros Hneg. unfold shift_value. destruct (Z.ltb_spec y 0); [|lia].
    by eexists.
  - intros Hpos. destruct (shift_value op x y) as [v|e] eqn:E.
    + apply shift_value_range in E as [_ Hv]. cbn [mbind result_bind].
      eexists _, v. split; [reflexivity|]. split; [|exact Hv].
      cbn [reg set_last_dst set_reg set_regs]. apply lookup_insert_eq.
    + unfold shift_value in E. destruct (Z.ltb_spec y 0); [lia|].
      destruct op; discriminate.
Qed.

Lemma shift_result_is_64_bit_witness :
  reg (set_reg "x1" (-1) initial) !! "x1" = Some (-1)
  /\ operand_value (Imm 4) (set_reg "x1" (-1) initial) = Ok 4
  /\ (4 < 0 -> exists msg,
        execute no_host (IShift Lsl "x0" "x1" (Imm 4)) (set_reg "x1" (-1) initial)
        = Raise (ValueError msg))
  /\ (0 <= 4 ->
      exists s' v,
        execute no_host (IShift Lsl "x0" "x1" (Imm 4)) (set_reg "x1" (-1) initial)
        = Ok s'
        /\ reg s' !! "x0" = Some v /\ 0 <= v < 2 ^ 64).
Proof.
  split; [reflexivity|]. split; [reflexivity|].
  apply (shift_result_is_64_bit no_host Lsl "x0" "x1" (Imm 4)
           (set_reg "x1" (-1) initial) (-1) 4); reflexivity.
Defined.
